(** * opentopodata: the elevation lookup backend

    A shallow embedding of [opentopodata/backend.py] and the properties of
    its coordinate reprojector, bounds validator, tile sampler and
    elevation lookup orchestrator.

    Numbers are binary64 floats, as in numpy and Python; a Python exception
    is the left summand of [result]. The libraries the backend calls
    (pyproj, rasterio) and the [config.Dataset] object are not part of the
    module: they are the variables of the sections below. *)

From Stdlib Require Import ZArith Floats Uint63.
From stdpp Require Import base list strings.

Local Open Scope string_scope.
Local Open Scope list_scope.

(** ** Exceptions and the error monad *)

(** The exceptions the module can end with. [InputError] is the class the
    backend declares; the others are raised by the Python runtime, numpy,
    pyproj or rasterio. *)
Inductive exn : Type :=
  | InputError (msg : string)
  | IndexError
  | ValueError
  | TypeError
  | LibraryError.

Definition result (A : Type) : Type := exn + A.

Definition ret {A : Type} (a : A) : result A := inr a.
Definition raise {A : Type} (e : exn) : result A := inl e.

Definition bind {A B : Type} (m : result A) (k : A → result B) : result B :=
  match m with
  | inl e => inl e
  | inr a => k a
  end.

Notation "'do' x <- m ;; k" := (bind m (fun x => k))
  (at level 10, x name, m at level 99, k at level 200).

(** A loop whose body may raise: the first exception ends the loop. *)
Fixpoint foldM {A B : Type} (f : A → B → result A) (acc : A) (l : list B)
  : result A :=
  match l with
  | [] => ret acc
  | b :: l' => do acc' <- f acc b ;; foldM f acc' l'
  end.

Fixpoint mapM {A B : Type} (f : A → result B) (l : list A) : result (list B) :=
  match l with
  | [] => ret []
  | a :: l' => do b <- f a ;; do bs <- mapM f l' ;; ret (b :: bs)
  end.

Definition is_ok {A : Type} (r : result A) : bool :=
  match r with inr _ => true | inl _ => false end.

Definition is_InputError {A : Type} (r : result A) : bool :=
  match r with inl (InputError _) => true | _ => false end.

(** ** Python and numpy primitives *)

(** [enumerate(l)] *)
Definition enumerate {A : Type} (l : list A) : list (nat * A) :=
  zip (seq 0 (length l)) l.

(** [a[i]] for a list or a numpy array and a non-negative index. *)
Definition getitem {A : Type} (a : list A) (i : nat) : result A :=
  match a !! i with
  | Some v => ret v
  | None => raise IndexError
  end.

(** [a[i] = v] for a list. *)
Definition setitem {A : Type} (a : list A) (i : nat) (v : A) : result (list A) :=
  if decide (i < length a) then ret (<[i := v]> a) else raise IndexError.

(** [a[indices]]: numpy indexing of an array by a list of indices. *)
Definition np_take {A : Type} (a : list A) (indices : list nat) : result (list A) :=
  mapM (getitem a) indices.

(** The builtin [all]. *)
Definition all (bs : list bool) : bool := forallb id bs.

(** The builtins [min(a, b)] and [max(a, b)]: the first argument is kept
    unless the second is strictly smaller (resp. larger). *)
Definition py_min (a b : float) : float := if (b <? a)%float then b else a.
Definition py_max (a b : float) : float := if (a <? b)%float then b else a.

(** [np.argmax] of a boolean array: the index of the first occurrence of
    the largest value, [ValueError] on an empty array. *)
Fixpoint argmax_from (best_i : nat) (best : bool) (i : nat) (bs : list bool) : nat :=
  match bs with
  | [] => best_i
  | b :: bs' =>
      if negb best && b then argmax_from i b (S i) bs'
      else argmax_from best_i best (S i) bs'
  end.

Definition np_argmax (bs : list bool) : result nat :=
  match bs with
  | [] => raise ValueError
  | b :: bs' => ret (argmax_from 0 b 1 bs')
  end.

Definition isnan (a : float) : bool := negb (a =? a)%float.

(** [np.clip(a, lo, hi)] is [minimum(maximum(a, lo), hi)] on each element;
    both let a NaN in [a] through. *)
Definition np_maximum (a b : float) : float :=
  if isnan a then a else if (b <? a)%float then a else b.
Definition np_minimum (a b : float) : float :=
  if isnan a then a else if (a <? b)%float then a else b.
Definition np_clip (a lo hi : float) : float := np_minimum (np_maximum a lo) hi.

(** The float of a Python integer (exact below 2^53; the integers here are
    the height and the width of a raster). *)
Definition float_of_Z (z : Z) : float :=
  match z with
  | Z0 => 0%float
  | Zpos _ => of_uint63 (Uint63.of_Z z)
  | Zneg _ => (- of_uint63 (Uint63.of_Z (- z)))%float
  end.

(** ** Constants of the module *)

Inductive Resampling : Type := nearest | bilinear | cubic.

(** [INTERPOLATION_METHODS.get(name)] *)
Definition INTERPOLATION_METHODS_get (name : string) : option Resampling :=
  if String.eqb name "nearest" then Some nearest
  else if String.eqb name "bilinear" then Some bilinear
  else if String.eqb name "cubic" then Some cubic
  else None.

Definition WGS84_LATLON_EPSG : Z := 4326.

Definition _noop {A : Type} (x : A) : A := x.

(** [rasterio.coords.BoundingBox] *)
Record BoundingBox : Type := mkBoundingBox {
  left : float;
  bottom : float;
  right : float;
  top : float
}.

(** An open raster file ([rasterio.open(path)]): the attributes and methods
    the backend uses. [f_crs_to_epsg] is [f.crs.to_epsg()], which is [None]
    for a projection without a code; [f_index] is
    [f.index(xs, ys, op=_noop)], the fractional rows and columns; [f_read]
    is the masked, boundless read of band 1 in the 1x1 window at
    [(col, row)] as a float with the resampling it is given: the exception
    rasterio raises, or else the cell, [None] when it is masked. The read
    is the only place where the resampling is used. *)
Record DatasetReader : Type := mkDatasetReader {
  f_crs_to_epsg : option Z;
  f_bounds : BoundingBox;
  f_res : float * float;
  f_height : Z;
  f_width : Z;
  f_index : list float → list float → list float * list float;
  f_read : float → float → option Resampling → result (option float)
}.

(** [config.Dataset], as far as the backend calls it. A path of [None]
    marks a point that no tile covers; a fill value of [None] marks a point
    outside the bounds of the dataset. *)
Record Dataset : Type := mkDataset {
  location_paths : list float → list float → list (option string);
  missing_tile_elevations : list float → list float → list (option float)
}.

(** ** Dictionaries

    A Python [dict] keeps its keys in insertion order, and the order of the
    loops over [path_to_point_index] and [elevations_by_path] is that
    order: a dictionary is an association list without repeated keys. The
    keys are tile paths or [None]. *)
Definition dict (V : Type) : Type := list (option string * V).

Fixpoint dict_lookup {V : Type} (d : dict V) (k : option string) : option V :=
  match d with
  | [] => None
  | (k', v) :: d' => if decide (k' = k) then Some v else dict_lookup d' k
  end.

(** [k in d] *)
Definition dict_contains {V : Type} (d : dict V) (k : option string) : bool :=
  bool_decide (is_Some (dict_lookup d k)).

(** [d[k] = v] *)
Fixpoint dict_set {V : Type} (d : dict V) (k : option string) (v : V) : dict V :=
  match d with
  | [] => [(k, v)]
  | (k', v') :: d' =>
      if decide (k' = k) then (k', v) :: d' else (k', v') :: dict_set d' k v
  end.

(** [d[k].append(i)] for a [defaultdict(list)]. *)
Fixpoint defaultdict_append (d : dict (list nat)) (k : option string) (i : nat)
  : dict (list nat) :=
  match d with
  | [] => [(k, [i])]
  | (k', l) :: d' =>
      if decide (k' = k) then (k', l ++ [i]) :: d'
      else (k', l) :: defaultdict_append d' k i
  end.

(** [d[k]] for a [defaultdict(list)]. The backend reads only keys that are
    present, so the empty list a missing key would add is never stored. *)
Definition defaultdict_get (d : dict (list nat)) (k : option string) : list nat :=
  default [] (dict_lookup d k).

(** [v is None], [None in l] and [l.index(None)] *)
Definition is_None {A : Type} (v : option A) : bool :=
  match v with None => true | Some _ => false end.

Definition contains_None {A : Type} (l : list (option A)) : bool :=
  existsb is_None l.

Fixpoint index_None {A : Type} (l : list (option A)) : result nat :=
  match l with
  | [] => raise ValueError
  | None :: _ => ret 0
  | Some _ :: l' => do i <- index_None l' ;; ret (S i)
  end.

Section Backend.

(** [str.format] of one number. *)
Variable format_float : float → string.

(** [pyproj.Proj(init="EPSG:<epsg>")(lons, lats)]; [None] when pyproj
    raises. *)
Variable pyproj_Proj : Z → list float → list float → option (list float * list float).

(** ** Coordinate reprojector *)

Definition _reproject_latlons (lats lons : list float) (epsg : Z)
  : result (list float * list float) :=
  if (epsg =? WGS84_LATLON_EPSG)%Z then ret (lons, lats)
  else if negb ((1024 <=? epsg)%Z && (epsg <=? 32767)%Z) then
    raise (InputError "Dataset has invalid projection.")
  else
    match pyproj_Proj epsg lons lats with
    | Some (x, y) => ret (x, y)
    | None => raise LibraryError
    end.

(** ** Bounds validator *)

Definition latitude_message (lat lon : float) : string :=
  "Location '" +:+ format_float lat +:+ "," +:+ format_float lon
    +:+ "' has latitude outside of raster bounds".

Definition longitude_message (lat lon : float) : string :=
  "Location '" +:+ format_float lat +:+ "," +:+ format_float lon
    +:+ "' has longitude outside of raster bounds".

Definition x_min (bounds : BoundingBox) (res : float * float) : float :=
  (py_min (left bounds) (right bounds) + res.1 / 2)%float.
Definition x_max (bounds : BoundingBox) (res : float * float) : float :=
  (py_max (left bounds) (right bounds) - res.1 / 2)%float.
Definition y_min (bounds : BoundingBox) (res : float * float) : float :=
  (py_min (top bounds) (bottom bounds) + res.2 / 2)%float.
Definition y_max (bounds : BoundingBox) (res : float * float) : float :=
  (py_max (top bounds) (bottom bounds) - res.2 / 2)%float.

(** [(a >= lo) & (a <= hi)], elementwise. *)
Definition in_bounds (lo hi : float) (a : list float) : list bool :=
  map (fun v => (lo <=? v)%float && (v <=? hi)%float) a.

Definition _validate_points_lie_within_raster
    (xs ys lats lons : list float) (bounds : BoundingBox) (res : float * float)
  : result unit :=
  let x_in_bounds := in_bounds (x_min bounds res) (x_max bounds res) xs in
  let y_in_bounds := in_bounds (y_min bounds res) (y_max bounds res) ys in
  if negb (all y_in_bounds) then
    do i_oob <- np_argmax y_in_bounds ;;
    do lat <- getitem lats i_oob ;;
    do lon <- getitem lons i_oob ;;
    raise (InputError (latitude_message lat lon))
  else if negb (all x_in_bounds) then
    do i_oob <- np_argmax x_in_bounds ;;
    do lat <- getitem lats i_oob ;;
    do lon <- getitem lons i_oob ;;
    raise (InputError (longitude_message lat lon))
  else ret tt.

(** ** Tile sampler *)

(** [rasterio.open(path)]; [None] when rasterio raises. *)
Variable rasterio_open : string → option DatasetReader.

(** [np.ma.filled(z_array, np.nan)[0][0]] *)
Definition filled (z_array : option float) : float :=
  match z_array with
  | Some z => z
  | None => nan
  end.

(** A file without an EPSG code ends in the [TypeError] of
    [1024 <= None] in the reprojector. *)
Definition _get_elevation_from_path
    (lats lons : list float) (path : string) (interpolation : string)
  : result (list float) :=
  let interpolation := INTERPOLATION_METHODS_get interpolation in
  match rasterio_open path with
  | None => raise LibraryError
  | Some f =>
      do epsg <- match f_crs_to_epsg f with
                 | Some epsg => ret epsg
                 | None => raise TypeError
                 end ;;
      do xy <- _reproject_latlons lats lons epsg ;;
      let (xs, ys) := xy : list float * list float in
      do _ <- _validate_points_lie_within_raster xs ys lats lons (f_bounds f) (f_res f) ;;
      let (rows, cols) := f_index f xs ys in
      let rows := map (fun row => row - 0.5)%float rows in
      let cols := map (fun col => col - 0.5)%float cols in
      let rows := map (fun row => np_clip row 0 (float_of_Z (f_height f - 1))) rows in
      let cols := map (fun col => np_clip col 0 (float_of_Z (f_width f - 1))) cols in
      mapM (fun rc =>
              do z_array <- f_read f rc.2 rc.1 interpolation ;;
              ret (filled z_array))
           (zip rows cols)
  end.

(** ** Elevation lookup orchestrator *)

Definition outside_message (lat lon : float) : string :=
  "Point '" +:+ format_float lat +:+ "," +:+ format_float lon
    +:+ "' is outside dataset bounds.".

(** The loop that fills [path_to_point_index]. *)
Definition group_indices (paths : list (option string)) : dict (list nat) :=
  fold_left (fun d ip => defaultdict_append d ip.2 ip.1) (enumerate paths) [].

(** The branch taken when some point has no tile: the fill values, or the
    error for the first point the dataset leaves unfilled. *)
Definition fill_missing
    (lats lons : list float) (dataset : Dataset)
    (path_to_point_index : dict (list nat))
  : result (dict (list (option float))) :=
  if dict_contains path_to_point_index None then
    let indices := defaultdict_get path_to_point_index None in
    do no_path_lats <- np_take lats indices ;;
    do no_path_lons <- np_take lons indices ;;
    let fill_values := missing_tile_elevations dataset no_path_lats no_path_lons in
    if negb (contains_None fill_values) then ret (dict_set [] None fill_values)
    else
      do i <- index_None fill_values ;;
      do lat <- getitem no_path_lats i ;;
      do lon <- getitem no_path_lons i ;;
      raise (InputError (outside_message lat lon))
  else ret [].

(** The loop that samples every tile. *)
Definition sample_tiles
    (lats lons : list float) (interpolation : string)
    (path_to_point_index : dict (list nat))
    (elevations_by_path : dict (list (option float)))
  : result (dict (list (option float))) :=
  foldM
    (fun elevations_by_path entry =>
       match entry.1 with
       | None => ret elevations_by_path
       | Some path =>
           do batch_lats <- np_take lats (defaultdict_get path_to_point_index (Some path)) ;;
           do batch_lons <- np_take lons (defaultdict_get path_to_point_index (Some path)) ;;
           do z <- _get_elevation_from_path batch_lats batch_lons path interpolation ;;
           ret (dict_set elevations_by_path (Some path) (map Some z))
       end)
    elevations_by_path path_to_point_index.

(** The loops that put the results back. *)
Definition scatter
    (path_elevations : list (option float)) (indices : list nat)
    (elevations : list (option float))
  : result (list (option float)) :=
  foldM
    (fun elevations ii =>
       do v <- getitem path_elevations ii.1 ;;
       setitem elevations ii.2 v)
    elevations (enumerate indices).

Definition merge
    (path_to_point_index : dict (list nat))
    (elevations_by_path : dict (list (option float)))
    (elevations : list (option float))
  : result (list (option float)) :=
  foldM
    (fun elevations entry =>
       scatter entry.2 (defaultdict_get path_to_point_index entry.1) elevations)
    elevations elevations_by_path.

Definition get_elevation
    (lats lons : list float) (dataset : Dataset) (interpolation : string)
  : result (list (option float)) :=
  let paths := location_paths dataset lats lons in
  let path_to_point_index := group_indices paths in
  do elevations_by_path <- fill_missing lats lons dataset path_to_point_index ;;
  do elevations_by_path <-
    sample_tiles lats lons interpolation path_to_point_index elevations_by_path ;;
  let elevations := replicate (length paths) None in
  merge path_to_point_index elevations_by_path elevations.

End Backend.

(** ** Data of the test suite

    The bounding box and resolution of [TestValidatePointsLieWithinRaster]:
    the valid extent is [[-100, 100]] by [[-50, 50]]. *)
Definition test_bounds : BoundingBox :=
  mkBoundingBox (-101)%float (-51)%float 101%float 51%float.
Definition test_res : float * float := (2%float, 2%float).

(** An environment to run the backend on. The formatter prints the sign
    of a number; pyproj knows no projection; the only raster is
    ["tile.tif"], in WGS84 over the test bounds, whose cell at fractional
    [(col, row)] holds [col + row]. *)
Definition format_sign (v : float) : string :=
  if (v <? 0)%float then "-" else "+".

Definition no_Proj (epsg : Z) (lons lats : list float)
  : option (list float * list float) := None.

Definition example_tile : DatasetReader := {|
  f_crs_to_epsg := Some 4326%Z;
  f_bounds := test_bounds;
  f_res := test_res;
  f_height := 51;
  f_width := 101;
  f_index := fun xs ys =>
    (map (fun y => (51 - y) / 2)%float ys, map (fun x => (x + 101) / 2)%float xs);
  f_read := fun col row _ => ret (Some (col + row)%float)
|}.

Definition example_open (path : string) : option DatasetReader :=
  if String.eqb path "tile.tif" then Some example_tile else None.

(** Two datasets over that raster: the tile covers the northern
    hemisphere, and the points south of it are filled with 0 by the first
    dataset and left unfilled by the second. *)
Definition example_paths (lats lons : list float) : list (option string) :=
  map (fun lat => if (lat <? 0)%float then None else Some "tile.tif") lats.

Definition example_dataset : Dataset := {|
  location_paths := example_paths;
  missing_tile_elevations := fun lats lons => map (fun _ => Some 0%float) lats
|}.

Definition unfilled_dataset : Dataset := {|
  location_paths := example_paths;
  missing_tile_elevations := fun lats lons => map (fun _ => None) lats
|}.

(** A dataset of two tiles, east and west of the prime meridian; the
    western one is a file that cannot be opened. *)
Definition east_west_dataset : Dataset := {|
  location_paths := fun lats lons =>
    map (fun lon => if (lon <? 0)%float then Some "west.tif" else Some "tile.tif") lons;
  missing_tile_elevations := fun lats lons => map (fun _ => None) lats
|}.

(** ** Specification-side notions *)

(** The index of the first point that fails a bounds test. *)
Fixpoint first_offending (in_bounds : list bool) : option nat :=
  match in_bounds with
  | [] => None
  | false :: _ => Some 0
  | true :: bs => S <$> first_offending bs
  end.

(** A point is in bounds when both coordinates are inside the extent inset
    by half a pixel, boundaries included. *)
Definition point_in_bounds (bounds : BoundingBox) (res : float * float)
    (x y : float) : bool :=
  ((x_min bounds res <=? x)%float && (x <=? x_max bounds res)%float)
  && ((y_min bounds res <=? y)%float && (y <=? y_max bounds res)%float).

(** The indices of the points that the dataset routes to [key], in
    increasing order. *)
Definition routed_to (paths : list (option string)) (key : option string)
  : list nat :=
  filter (fun i => paths !! i = Some key) (seq 0 (length paths)).

(** The indices the merge loops assign, in the order of the assignments:
    the loops run over the entries of [elevations_by_path] and, inside,
    over the indices of the entry's path. *)
Definition assigned
    (path_to_point_index : dict (list nat))
    (elevations_by_path : dict (list (option float)))
  : list nat :=
  elevations_by_path.*1 ≫= defaultdict_get path_to_point_index.

(** The values the group of [key] produces: the fill values of the points
    without a tile, or the sampler's result for the points of one tile. *)
Definition group_values
    (format_float : float → string)
    (pyproj_Proj : Z → list float → list float → option (list float * list float))
    (rasterio_open : string → option DatasetReader)
    (lats lons : list float) (dataset : Dataset) (interpolation : string)
    (key : option string)
  : result (list (option float)) :=
  let indices := routed_to (location_paths dataset lats lons) key in
  do group_lats <- np_take lats indices ;;
  do group_lons <- np_take lons indices ;;
  match key with
  | None => ret (missing_tile_elevations dataset group_lats group_lons)
  | Some path =>
      do z <- _get_elevation_from_path format_float pyproj_Proj rasterio_open
                group_lats group_lons path interpolation ;;
      ret (map Some z)
  end.

(** The distinct routing results of a batch, in the order of their first
    occurrence. *)
Definition first_occurrences (paths : list (option string))
  : list (option string) :=
  reverse (remove_dups (reverse paths)).

(** * Properties *)

(** ** The error monad *)

Lemma bind_ret_inv {A B : Type} (m : result A) (k : A → result B) (b : B) :
  bind m k = ret b → ∃ a, m = ret a ∧ k a = ret b.
Proof.
  destruct m as [e|a]; simpl; [discriminate|]. intros H. by exists a.
Qed.

Lemma getitem_lt {A : Type} (a : list A) (i : nat) :
  i < length a → ∃ v, a !! i = Some v ∧ getitem a i = ret v.
Proof.
  intros Hi. destruct (lookup_lt_is_Some_2 a i Hi) as [v Hv].
  exists v. split; [done|]. unfold getitem. by rewrite Hv.
Qed.

Lemma lookup_map_Some {A B : Type} (f : A → B) (l : list A) (k : nat) (v : B) :
  map f l !! k = Some v → ∃ a, l !! k = Some a ∧ v = f a.
Proof.
  revert k. induction l as [|a l IH]; intros [|k] Hk; simplify_eq/=.
  - by exists a.
  - by apply IH.
Qed.

(** ** Floats *)

Lemma leb_refl_l (a b : float) : (a <=? b)%float = true → (a <=? a)%float = true.
Proof.
  rewrite !FloatAxioms.leb_spec. unfold SFleb.
  destruct (Prim2SF a) as [s|s| |s m e], (Prim2SF b) as [s'|s'| |s' m' e'];
    simpl; try discriminate; try done; intros _;
    try (by destruct s);
    destruct s; rewrite Z.compare_refl, Pos.compare_cont_refl; done.
Qed.

Lemma leb_refl_r (a b : float) : (a <=? b)%float = true → (b <=? b)%float = true.
Proof.
  rewrite !FloatAxioms.leb_spec. unfold SFleb.
  destruct (Prim2SF a) as [s|s| |s m e], (Prim2SF b) as [s'|s'| |s' m' e'];
    simpl; try discriminate; try done; intros _;
    try (by destruct s');
    destruct s'; rewrite Z.compare_refl, Pos.compare_cont_refl; done.
Qed.

(** ** [all] and [np.argmax] *)

Lemma all_in_bounds (lo hi : float) (a : list float) :
  all (in_bounds lo hi a) = true
  ↔ Forall (fun v => (lo <=? v)%float = true ∧ (v <=? hi)%float = true) a.
Proof.
  unfold all, in_bounds. induction a as [|v a IH]; simpl.
  - split; [constructor|done].
  - unfold id at 1. rewrite andb_true_iff, Forall_cons, IH, andb_true_iff. done.
Qed.

Lemma in_bounds_length (lo hi : float) (a : list float) :
  length (in_bounds lo hi a) = length a.
Proof. apply length_map. Qed.

Lemma argmax_from_bound (bs : list bool) (best_i i : nat) (best : bool) :
  best_i < i → argmax_from best_i best i bs < i + length bs.
Proof.
  revert best_i i best. induction bs as [|b bs IH]; intros best_i i best Hi; simpl.
  - lia.
  - destruct (negb best && b).
    + specialize (IH i (S i) b). lia.
    + specialize (IH best_i (S i) best). lia.
Qed.

Lemma np_argmax_lt (bs : list bool) :
  bs ≠ [] → ∃ i, np_argmax bs = ret i ∧ i < length bs.
Proof.
  destruct bs as [|b bs]; [done|]. intros _. eexists. split; [done|].
  pose proof (argmax_from_bound bs 0 1 b). simpl. lia.
Qed.

Lemma all_false_nonempty (bs : list bool) : all bs = false → bs ≠ [].
Proof. by destruct bs. Qed.

(** [np.argmax] of an in-bounds array is the index of the first point
    that is in bounds, and 0 when no point is. *)
Lemma argmax_from_true (bs : list bool) (best_i i : nat) :
  argmax_from best_i true i bs = best_i.
Proof. revert i. induction bs as [|b bs IH]; intros i; simpl; [done|]. apply IH. Qed.

Lemma argmax_from_false (bs : list bool) (best_i i : nat) :
  argmax_from best_i false i bs
  = from_option (fun j => i + j) best_i (first_offending (map negb bs)).
Proof.
  revert i. induction bs as [|[] bs IH]; intros i; simpl; [done| |].
  - rewrite argmax_from_true. lia.
  - rewrite IH. destruct (first_offending (map negb bs)); simpl; lia.
Qed.

Lemma np_argmax_first_in_bounds (bs : list bool) :
  bs ≠ [] → np_argmax bs = ret (default 0 (first_offending (map negb bs))).
Proof.
  destruct bs as [|[] bs]; [done| |]; intros _; simpl.
  - by rewrite argmax_from_true.
  - rewrite argmax_from_false.
    by destruct (first_offending (map negb bs)).
Qed.

Lemma first_offending_lookup (bs : list bool) (i : nat) :
  first_offending bs = Some i → bs !! i = Some false.
Proof.
  revert i. induction bs as [|[] bs IH]; intros i Hi; simplify_eq/=; [|done].
  destruct (first_offending bs) as [j|]; simplify_eq/=. by apply IH.
Qed.

Lemma first_offending_None (bs : list bool) (i : nat) :
  first_offending bs = None → bs !! i ≠ Some false.
Proof.
  revert i. induction bs as [|[] bs IH]; intros i Hi; simplify_eq/=; [done|].
  destruct (first_offending bs) as [j|] eqn:Hfo; simplify_eq/=.
  destruct i as [|i]; simpl; [done|]. by apply IH.
Qed.

(** So the index the validator quotes is in bounds as soon as some point of
    the batch is. *)
Lemma np_argmax_in_bounds (bs : list bool) (i j : nat) :
  np_argmax bs = ret i → bs !! j = Some true → bs !! i = Some true.
Proof.
  intros Hi Hj. rewrite np_argmax_first_in_bounds in Hi by (by intros ->).
  injection Hi as <-.
  destruct (first_offending (map negb bs)) as [k|] eqn:Hfo; simpl.
  - apply first_offending_lookup in Hfo.
    apply lookup_map_Some in Hfo as ([] & ? & ?); done.
  - apply first_offending_None with (i := j) in Hfo. destruct Hfo.
    clear -Hj. revert j Hj.
    induction bs as [|b bs IH]; intros [|j] Hj; simplify_eq/=; [done|].
    by apply IH.
Qed.

(** ** Error messages *)

Lemma string_app_cons (c : Ascii.ascii) (s t : string) :
  String c s +:+ t = String c (s +:+ t).
Proof. reflexivity. Qed.

Lemma string_app_assoc (s t u : string) : (s +:+ t) +:+ u = s +:+ (t +:+ u).
Proof.
  induction s as [|c s IH]; [done|]. rewrite !string_app_cons. by f_equal.
Qed.

Lemma chars_app (s t : string) :
  String.list_ascii_of_string (s +:+ t)
  = String.list_ascii_of_string s ++ String.list_ascii_of_string t.
Proof.
  induction s as [|c s IH]; [done|]. rewrite string_app_cons. simpl. by f_equal.
Qed.

Lemma chars_length (s : string) :
  length (String.list_ascii_of_string s) = String.length s.
Proof. induction s as [|c s IH]; simpl; [done|]. by f_equal. Qed.

(** Two strings with the same ending agree on their last [n] characters. *)
Lemma append_suffix_take (s s' t t' : string) (n : nat) :
  s +:+ t = s' +:+ t' →
  (n ≤ String.length t)%nat → (n ≤ String.length t')%nat →
  take n (reverse (String.list_ascii_of_string t))
  = take n (reverse (String.list_ascii_of_string t')).
Proof.
  intros Heq Hn Hn'.
  apply (f_equal (fun u => take n (reverse (String.list_ascii_of_string u)))) in Heq.
  rewrite !chars_app, !reverse_app in Heq.
  rewrite !take_app_le in Heq; [done| |];
    by rewrite length_reverse, chars_length.
Qed.

Section Validator.

Variable format_float : float → string.

Abbreviation validate := (_validate_points_lie_within_raster format_float).

Lemma latitude_longitude_distinct (lat lon lat' lon' : float) :
  latitude_message format_float lat lon
  ≠ longitude_message format_float lat' lon'.
Proof.
  unfold latitude_message, longitude_message. intros Heq.
  rewrite <- !string_app_assoc in Heq.
  eapply (append_suffix_take _ _ _ _ 32) in Heq; simpl; [|lia..].
  vm_compute in Heq. discriminate.
Qed.

(** The validator returns exactly when both boolean arrays are all true. *)
Lemma validate_ok_iff (xs ys lats lons : list float) bounds res :
  validate xs ys lats lons bounds res = ret tt
  ↔ all (in_bounds (y_min bounds res) (y_max bounds res) ys) = true
    ∧ all (in_bounds (x_min bounds res) (x_max bounds res) xs) = true.
Proof.
  unfold _validate_points_lie_within_raster.
  destruct (all (in_bounds (y_min _ _) _ ys)) eqn:Hy; simpl.
  - destruct (all (in_bounds (x_min _ _) _ xs)) eqn:Hx; simpl; [done|].
    split; [|intros [_ ?]; done].
    destruct (np_argmax _) as [?|i]; simpl; [done|].
    destruct (getitem lats i); simpl; [done|].
    by destruct (getitem lons i).
  - split; [|intros [? _]; done].
    destruct (np_argmax _) as [?|i]; simpl; [done|].
    destruct (getitem lats i); simpl; [done|].
    by destruct (getitem lons i).
Qed.

Lemma validate_is_ok (xs ys lats lons : list float) bounds res :
  is_ok (validate xs ys lats lons bounds res)
  = all (in_bounds (y_min bounds res) (y_max bounds res) ys)
    && all (in_bounds (x_min bounds res) (x_max bounds res) xs).
Proof.
  pose proof (validate_ok_iff xs ys lats lons bounds res) as H.
  destruct (validate xs ys lats lons bounds res) as [e|[]]; simpl.
  - symmetry. apply not_true_is_false. rewrite andb_true_iff.
    intros Hb. apply H in Hb. done.
  - symmetry. apply andb_true_iff, H. done.
Qed.

(** A failed test on an axis ends in the error of that axis, quoting the
    point at the index [np.argmax] returns. *)
Lemma quoted_point (bs : list bool) (lats lons : list float) :
  all bs = false → length lats = length bs → length lons = length bs →
  ∃ i lat lon,
    np_argmax bs = ret i ∧ lats !! i = Some lat ∧ lons !! i = Some lon
    ∧ getitem lats i = ret lat ∧ getitem lons i = ret lon.
Proof.
  intros Hall Hlat Hlon.
  destruct (np_argmax_lt bs (all_false_nonempty _ Hall)) as (i & Hi & Hlt).
  destruct (getitem_lt lats i) as (lat & ? & ?); [lia|].
  destruct (getitem_lt lons i) as (lon & ? & ?); [lia|].
  by exists i, lat, lon.
Qed.

Lemma validate_latitude_error (xs ys lats lons : list float) bounds res :
  all (in_bounds (y_min bounds res) (y_max bounds res) ys) = false →
  length lats = length ys → length lons = length ys →
  ∃ lat lon,
    validate xs ys lats lons bounds res
    = raise (InputError (latitude_message format_float lat lon)).
Proof.
  intros Hall Hlat Hlon.
  destruct (quoted_point _ lats lons Hall) as (i & lat & lon & Hi & _ & _ & Hla & Hlo);
    [by rewrite in_bounds_length..|].
  exists lat, lon. unfold _validate_points_lie_within_raster.
  by rewrite Hall, Hi; simpl; rewrite Hla; simpl; rewrite Hlo.
Qed.

Lemma validate_longitude_error (xs ys lats lons : list float) bounds res :
  all (in_bounds (y_min bounds res) (y_max bounds res) ys) = true →
  all (in_bounds (x_min bounds res) (x_max bounds res) xs) = false →
  length lats = length xs → length lons = length xs →
  ∃ lat lon,
    validate xs ys lats lons bounds res
    = raise (InputError (longitude_message format_float lat lon)).
Proof.
  intros Hy Hall Hlat Hlon.
  destruct (quoted_point _ lats lons Hall) as (i & lat & lon & Hi & _ & _ & Hla & Hlo);
    [by rewrite in_bounds_length..|].
  exists lat, lon. unfold _validate_points_lie_within_raster.
  by rewrite Hy, Hall, Hi; simpl; rewrite Hla; simpl; rewrite Hlo.
Qed.

(** Whenever the y test fails and some point of the batch passes it, the
    point the error quotes is one that passes it. *)
Lemma validate_latitude_error_quotes_in_bounds
    (xs ys lats lons : list float) bounds res (j : nat) :
  all (in_bounds (y_min bounds res) (y_max bounds res) ys) = false →
  in_bounds (y_min bounds res) (y_max bounds res) ys !! j = Some true →
  length lats = length ys → length lons = length ys →
  ∃ i lat lon,
    in_bounds (y_min bounds res) (y_max bounds res) ys !! i = Some true
    ∧ lats !! i = Some lat ∧ lons !! i = Some lon
    ∧ validate xs ys lats lons bounds res
      = raise (InputError (latitude_message format_float lat lon)).
Proof.
  intros Hall Hj Hlat Hlon.
  destruct (quoted_point _ lats lons Hall)
    as (i & lat & lon & Hi & Hla & Hlo & Hgla & Hglo);
    [by rewrite in_bounds_length..|].
  exists i, lat, lon. split; [by eapply np_argmax_in_bounds|].
  split; [done|]. split; [done|].
  unfold _validate_points_lie_within_raster.
  by rewrite Hall, Hi; simpl; rewrite Hgla; simpl; rewrite Hglo.
Qed.

(** C1. The claim: the error quotes the first point out of bounds. The
    code takes [np.argmax] of the in-bounds array, which is the index of
    the first point IN bounds whenever there is one. For the two points
    (lat 0, lon 5) and (lat 60, lon 7) inside the test raster, the first
    offending index is 1 and the point at index 0 is in bounds, yet the
    message quotes the latitude and longitude of index 0. *)
Theorem validate_quotes_in_bounds_point :
  let lats := [0; 60]%float in
  let lons := [5; 7]%float in
  first_offending
    (in_bounds (y_min test_bounds test_res) (y_max test_bounds test_res) lats)
  = Some 1
  ∧ point_in_bounds test_bounds test_res 5 0 = true
  ∧ point_in_bounds test_bounds test_res 7 60 = false
  ∧ validate lons lats lats lons test_bounds test_res
    = raise (InputError (latitude_message format_float 0 5)).
Proof. repeat split. Qed.

(** C5. When some point is outside on the y axis and some point is outside
    on the x axis, the error is the latitude one, and it is no longitude
    message. *)
Theorem validate_latitude_before_longitude
    (xs ys lats lons : list float) bounds res :
  length lats = length ys → length lons = length ys →
  all (in_bounds (y_min bounds res) (y_max bounds res) ys) = false →
  all (in_bounds (x_min bounds res) (x_max bounds res) xs) = false →
  (∃ lat lon,
     validate xs ys lats lons bounds res
     = raise (InputError (latitude_message format_float lat lon)))
  ∧ ∀ lat lon,
     validate xs ys lats lons bounds res
     ≠ raise (InputError (longitude_message format_float lat lon)).
Proof.
  intros Hlat Hlon Hy _.
  destruct (validate_latitude_error xs ys lats lons bounds res Hy Hlat Hlon)
    as (lat & lon & Hv).
  split; [by exists lat, lon|].
  intros lat' lon'. rewrite Hv. intros Heq.
  apply (latitude_longitude_distinct lat lon lat' lon').
  unfold raise in Heq. congruence.
Qed.

Lemma all_zip_in_bounds (xs ys : list float) bounds res :
  length xs = length ys →
  all (in_bounds (y_min bounds res) (y_max bounds res) ys) = true
  ∧ all (in_bounds (x_min bounds res) (x_max bounds res) xs) = true
  ↔ Forall (fun p => point_in_bounds bounds res p.1 p.2 = true) (zip xs ys).
Proof.
  rewrite !all_in_bounds. revert ys.
  induction xs as [|x xs IH]; intros [|y ys] Hlen; simplify_eq/=.
  - split; [constructor|]. intros _. split; constructor.
  - rewrite !Forall_cons, <- (IH ys) by done. unfold point_in_bounds; simpl.
    rewrite !andb_true_iff. tauto.
Qed.

(** C4. For a batch of points [(x, y)], the validator returns normally
    exactly when every point has [x_min <= x <= x_max] and
    [y_min <= y <= y_max], the extent being the bounding box inset by half a
    pixel; the points on the boundary of a non-empty extent are in bounds,
    and a batch made of one of them passes. *)
Theorem validate_in_bounds_iff (xs ys lats lons : list float) bounds res :
  length xs = length ys →
  (validate xs ys lats lons bounds res = ret tt
   ↔ Forall (fun p => point_in_bounds bounds res p.1 p.2 = true) (zip xs ys))
  ∧ ((x_min bounds res <=? x_max bounds res)%float = true →
     (y_min bounds res <=? y_max bounds res)%float = true →
     ∀ x y,
       x ∈ [x_min bounds res; x_max bounds res] →
       y ∈ [y_min bounds res; y_max bounds res] →
       point_in_bounds bounds res x y = true
       ∧ validate [x] [y] lats lons bounds res = ret tt).
Proof.
  intros Hlen. split.
  - by rewrite validate_ok_iff, all_zip_in_bounds.
  - intros Hx Hy x y Hxin Hyin.
    assert (point_in_bounds bounds res x y = true) as Hp.
    { unfold point_in_bounds.
      pose proof (leb_refl_l _ _ Hx). pose proof (leb_refl_r _ _ Hx).
      pose proof (leb_refl_l _ _ Hy). pose proof (leb_refl_r _ _ Hy).
      rewrite !andb_true_iff.
      rewrite !elem_of_cons, elem_of_nil in Hxin, Hyin.
      destruct_or!; subst x y; done. }
    split; [done|].
    rewrite validate_ok_iff, all_zip_in_bounds by done.
    by repeat constructor.
Qed.

(** C6. Two runs on the same [xs], [ys], [bounds] and [res] agree on
    whether they return, whatever the latitudes and longitudes; and when
    these have the length of the batch, the runs both return or both raise
    [InputError]. *)
Theorem validate_outcome_independent_of_latlons
    (xs ys lats lons lats' lons' : list float) bounds res :
  is_ok (validate xs ys lats lons bounds res)
  = is_ok (validate xs ys lats' lons' bounds res)
  ∧ (length ys = length xs →
     length lats = length xs → length lons = length xs →
     length lats' = length xs → length lons' = length xs →
     (validate xs ys lats lons bounds res = ret tt
      ∧ validate xs ys lats' lons' bounds res = ret tt)
     ∨ (is_InputError (validate xs ys lats lons bounds res) = true
        ∧ is_InputError (validate xs ys lats' lons' bounds res) = true)).
Proof.
  split; [by rewrite !validate_is_ok|].
  intros Hys Hlat Hlon Hlat' Hlon'.
  destruct (all (in_bounds (y_min bounds res) (y_max bounds res) ys)) eqn:Hy.
  - destruct (all (in_bounds (x_min bounds res) (x_max bounds res) xs)) eqn:Hx.
    + left. by rewrite !validate_ok_iff.
    + right.
      destruct (validate_longitude_error xs ys lats lons bounds res)
        as (? & ? & ->); [done..|].
      destruct (validate_longitude_error xs ys lats' lons' bounds res)
        as (? & ? & ->); done.
  - right.
    destruct (validate_latitude_error xs ys lats lons bounds res)
      as (? & ? & ->); [done|lia..|].
    destruct (validate_latitude_error xs ys lats' lons' bounds res)
      as (? & ? & ->); [done|lia..|]. done.
Qed.

End Validator.

Section Sampler.

Variable format_float : float → string.
Variable pyproj_Proj : Z → list float → list float → option (list float * list float).
Variable rasterio_open : string → option DatasetReader.

Abbreviation reproject := (_reproject_latlons pyproj_Proj).
Abbreviation sample :=
  (_get_elevation_from_path format_float pyproj_Proj rasterio_open).

(** C9. Reprojecting to EPSG 4326 returns [(lons, lats)] unchanged. *)
Theorem reproject_wgs84_identity (lats lons : list float) :
  reproject lats lons 4326 = ret (lons, lats).
Proof. reflexivity. Qed.

(** C8. The reprojector raises [InputError] exactly for the codes that are
    neither 4326 nor in the range 1024..32767, and the message is then the
    invalid-projection one. *)
Theorem reproject_invalid_epsg (lats lons : list float) (epsg : Z) :
  (is_InputError (reproject lats lons epsg) = true
   ↔ (epsg ≠ 4326 ∧ ¬ (1024 ≤ epsg ≤ 32767))%Z)
  ∧ (is_InputError (reproject lats lons epsg) = true →
     reproject lats lons epsg
     = raise (InputError "Dataset has invalid projection.")).
Proof.
  unfold _reproject_latlons, WGS84_LATLON_EPSG.
  destruct (Z.eqb_spec epsg 4326) as [->|Hne]; simpl.
  - split; [|done]. split; [done|]. intros [? _]. done.
  - destruct (Z.leb_spec 1024 epsg), (Z.leb_spec epsg 32767); simpl;
      try (split; [|done]; split; [intros _; lia|done]).
    destruct (pyproj_Proj epsg lons lats) as [[x y]|]; simpl;
      (split; [|done]; split; [done|lia]).
Qed.

(** C7. A kernel name outside the enumerated set is no error: the lookup
    gives no resampling, and the sampler goes on as for any name. Either a
    stage before the read fails (the file does not open or has no EPSG
    code, the reprojection or the bounds validation raises), and the
    exception is the one raised for every kernel name; or every stage
    passes, and the outcome is that of the reads, each made with no
    resampling override at the window computed from the file's index. *)
Theorem unknown_kernel_is_passed_through (name : string) :
  name ≠ "nearest" → name ≠ "bilinear" → name ≠ "cubic" →
  INTERPOLATION_METHODS_get name = None
  ∧ ∀ (lats lons : list float) (path : string),
      (∃ e, ∀ name', sample lats lons path name' = raise e)
      ∨ (∃ f epsg xs ys rows cols,
           rasterio_open path = Some f
           ∧ f_crs_to_epsg f = Some epsg
           ∧ reproject lats lons epsg = ret (xs, ys)
           ∧ _validate_points_lie_within_raster format_float xs ys lats lons
               (f_bounds f) (f_res f) = ret tt
           ∧ f_index f xs ys = (rows, cols)
           ∧ sample lats lons path name
             = mapM (fun rc =>
                       do z_array <- f_read f rc.2 rc.1 None ;;
                       ret (filled z_array))
                    (zip (map (fun row =>
                                 np_clip (row - 0.5) 0 (float_of_Z (f_height f - 1)))
                              rows)
                         (map (fun col =>
                                 np_clip (col - 0.5) 0 (float_of_Z (f_width f - 1)))
                              cols))).
Proof.
  intros Hn Hb Hc.
  assert (INTERPOLATION_METHODS_get name = None) as Hget.
  { unfold INTERPOLATION_METHODS_get.
    destruct (String.eqb_spec name "nearest"); [done|].
    destruct (String.eqb_spec name "bilinear"); [done|].
    by destruct (String.eqb_spec name "cubic"). }
  split; [done|]. intros lats lons path.
  unfold _get_elevation_from_path. rewrite Hget.
  destruct (rasterio_open path) as [f|] eqn:Hopen; [|left; by eexists].
  destruct (f_crs_to_epsg f) as [epsg|] eqn:Hepsg; simpl; [|left; by eexists].
  destruct (reproject lats lons epsg) as [e|[xs ys]] eqn:Hxy; simpl;
    [left; by exists e|].
  destruct (_validate_points_lie_within_raster _ xs ys lats lons _ _)
    as [e|[]] eqn:Hv; simpl; [left; by exists e|].
  destruct (f_index f xs ys) as [rows cols] eqn:Hidx.
  right. exists f, epsg, xs, ys, rows, cols.
  repeat (split; [done|]). by rewrite !map_map.
Qed.

End Sampler.

(** ** Dictionaries *)

Lemma dict_lookup_set {V : Type} (d : dict V) (k k' : option string) (v : V) :
  dict_lookup (dict_set d k v) k'
  = if decide (k = k') then Some v else dict_lookup d k'.
Proof.
  induction d as [|[k0 v0] d IH]; simpl.
  - by destruct (decide (k = k')).
  - destruct (decide (k0 = k)) as [->|Hne]; simpl.
    + by destruct (decide (k = k')).
    + rewrite IH. destruct (decide (k0 = k')) as [->|]; [|done].
      by rewrite decide_False.
Qed.

Lemma dict_set_keys {V : Type} (d : dict V) (k : option string) (v : V) :
  (dict_set d k v).*1 = if decide (k ∈ d.*1) then d.*1 else d.*1 ++ [k].
Proof.
  induction d as [|[k0 v0] d IH]; csimpl; [done|].
  destruct (decide (k0 = k)) as [->|Hne]; csimpl.
  - rewrite decide_True; [done|]. apply elem_of_cons. by left.
  - rewrite IH. destruct (decide (k ∈ d.*1)) as [Hin|Hnin].
    + rewrite decide_True; [done|]. apply elem_of_cons. by right.
    + rewrite decide_False; [done|]. by intros [->|?]%elem_of_cons.
Qed.

Lemma dict_lookup_elem_of {V : Type} (d : dict V) (k : option string) (v : V) :
  NoDup d.*1 → (k, v) ∈ d ↔ dict_lookup d k = Some v.
Proof.
  induction d as [|[k0 v0] d IH]; csimpl; intros Hnd.
  - split; [by intros ?%elem_of_nil|done].
  - apply NoDup_cons in Hnd as [Hk0 Hnd]. rewrite elem_of_cons.
    destruct (decide (k0 = k)) as [->|Hne].
    + split; [|intros [= ->]; by left].
      intros [[= ->]|Hin]; [done|]. destruct Hk0.
      change k with (k, v).1. by apply list_elem_of_fmap_2.
    + rewrite <- IH by done. split; [|by right].
      intros [[= -> ->]|Hin]; done.
Qed.

Lemma dict_lookup_None {V : Type} (d : dict V) (k : option string) :
  dict_lookup d k = None ↔ k ∉ d.*1.
Proof.
  induction d as [|[k0 v0] d IH]; csimpl.
  - split; [intros _; apply not_elem_of_nil|done].
  - rewrite not_elem_of_cons. destruct (decide (k0 = k)) as [->|Hne].
    + split; [done|]. by intros [? _].
    + rewrite IH. split; [by intros ?|by intros [_ ?]].
Qed.

Lemma dict_lookup_None_inv {V : Type} (d : dict V) (k : option string) :
  dict_lookup d k ≠ None → k ∈ d.*1.
Proof.
  intros Hne. destruct (decide (k ∈ d.*1)) as [|Hnin]; [done|].
  by apply dict_lookup_None in Hnin.
Qed.

Lemma defaultdict_append_lookup (d : dict (list nat)) (k k' : option string) (i : nat) :
  dict_lookup (defaultdict_append d k i) k'
  = if decide (k = k') then Some (defaultdict_get d k ++ [i])
    else dict_lookup d k'.
Proof.
  unfold defaultdict_get. induction d as [|[k0 l0] d IH]; simpl.
  - by destruct (decide (k = k')).
  - destruct (decide (k0 = k)) as [->|Hne]; simpl.
    + by destruct (decide (k = k')).
    + rewrite IH. destruct (decide (k0 = k')) as [->|]; [|done].
      by rewrite decide_False.
Qed.

Lemma defaultdict_append_keys (d : dict (list nat)) (k : option string) (i : nat) :
  (defaultdict_append d k i).*1 = if decide (k ∈ d.*1) then d.*1 else d.*1 ++ [k].
Proof.
  induction d as [|[k0 l0] d IH]; csimpl; [done|].
  destruct (decide (k0 = k)) as [->|Hne]; csimpl.
  - rewrite decide_True; [done|]. apply elem_of_cons. by left.
  - rewrite IH. destruct (decide (k ∈ d.*1)) as [Hin|Hnin].
    + rewrite decide_True; [done|]. apply elem_of_cons. by right.
    + rewrite decide_False; [done|]. by intros [->|?]%elem_of_cons.
Qed.

Lemma NoDup_snoc_fresh {A : Type} (l : list A) (x : A) :
  NoDup l → x ∉ l → NoDup (l ++ [x]).
Proof.
  intros Hnd Hx. apply NoDup_app. split; [done|]. split.
  - intros y Hy ->%list_elem_of_singleton. done.
  - apply NoDup_singleton.
Qed.

(** ** Grouping the points by tile *)

Lemma filter_ext_elem_of {A : Type} (P1 P2 : A → Prop)
    `{!∀ x, Decision (P1 x), !∀ x, Decision (P2 x)} (l : list A) :
  (∀ x, x ∈ l → P1 x ↔ P2 x) → filter P1 l = filter P2 l.
Proof.
  induction l as [|a l IH]; intros Hiff; [done|].
  rewrite !filter_cons, IH.
  - apply decide_ext, Hiff, elem_of_cons. by left.
  - intros x Hx. apply Hiff, elem_of_cons. by right.
Qed.

Lemma enumerate_snoc {A : Type} (l : list A) (x : A) :
  enumerate (l ++ [x]) = enumerate l ++ [(length l, x)].
Proof.
  unfold enumerate. rewrite length_app, seq_app; simpl.
  rewrite zip_with_app by (by rewrite length_seq). done.
Qed.

Lemma group_indices_snoc (paths : list (option string)) (p : option string) :
  group_indices (paths ++ [p])
  = defaultdict_append (group_indices paths) p (length paths).
Proof.
  unfold group_indices. by rewrite enumerate_snoc, fold_left_app.
Qed.

Lemma routed_to_snoc (paths : list (option string)) (p key : option string) :
  routed_to (paths ++ [p]) key
  = routed_to paths key ++ (if decide (p = key) then [length paths] else []).
Proof.
  unfold routed_to. rewrite length_app, seq_app, filter_app; simpl. f_equal.
  - apply filter_ext_elem_of. intros i Hi%elem_of_seq.
    rewrite lookup_app_l by lia. done.
  - rewrite filter_cons, filter_nil, list_lookup_middle by done.
    destruct (decide (p = key)) as [->|Hne].
    + by rewrite decide_True.
    + rewrite decide_False; [done|]. congruence.
Qed.

(** The dictionary the loop builds has one entry for every routing result
    that occurs, holding the indices routed to it in increasing order. *)
Lemma group_indices_lookup (paths : list (option string)) (key : option string) :
  dict_lookup (group_indices paths) key
  = match routed_to paths key with
    | [] => None
    | l => Some l
    end.
Proof.
  induction paths as [|p paths IH] using rev_ind; [done|].
  rewrite group_indices_snoc, routed_to_snoc, defaultdict_append_lookup.
  unfold defaultdict_get.
  destruct (decide (p = key)) as [->|Hne].
  - rewrite IH. destruct (routed_to paths key); done.
  - by rewrite IH, app_nil_r.
Qed.

Lemma group_indices_get (paths : list (option string)) (key : option string) :
  defaultdict_get (group_indices paths) key = routed_to paths key.
Proof.
  unfold defaultdict_get. rewrite group_indices_lookup.
  by destruct (routed_to paths key).
Qed.

Lemma group_indices_NoDup (paths : list (option string)) :
  NoDup (group_indices paths).*1.
Proof.
  induction paths as [|p paths IH] using rev_ind; [constructor|].
  rewrite group_indices_snoc, defaultdict_append_keys.
  destruct (decide _); [done|]. by apply NoDup_snoc_fresh.
Qed.

Lemma routed_to_lookup (paths : list (option string)) (key : option string) (i : nat) :
  i ∈ routed_to paths key ↔ paths !! i = Some key.
Proof.
  unfold routed_to. rewrite list_elem_of_filter, elem_of_seq.
  split; [by intros [? _]|]. intros Hi. split; [done|].
  apply lookup_lt_Some in Hi. lia.
Qed.

Lemma routed_to_NoDup (paths : list (option string)) (key : option string) :
  NoDup (routed_to paths key).
Proof. apply NoDup_filter, NoDup_seq. Qed.

Lemma dict_set_NoDup {V : Type} (d : dict V) (k : option string) (v : V) :
  NoDup d.*1 → NoDup (dict_set d k v).*1.
Proof.
  intros Hnd. rewrite dict_set_keys.
  destruct (decide _); [done|]. by apply NoDup_snoc_fresh.
Qed.

(** ** numpy indexing and [index] *)

Lemma np_take_lookup {A : Type} (a : list A) (indices : list nat) (sub : list A) :
  np_take a indices = ret sub →
  length sub = length indices
  ∧ ∀ k j, indices !! k = Some j → ∃ v, sub !! k = Some v ∧ a !! j = Some v.
Proof.
  unfold np_take. revert sub.
  induction indices as [|j0 indices IH]; simpl; intros sub Hsub.
  - injection Hsub as <-. split; [done|]. by intros k j ?.
  - apply bind_ret_inv in Hsub as (v0 & Hv0 & Hsub).
    apply bind_ret_inv in Hsub as (sub' & Hsub' & Hsub).
    injection Hsub as <-. destruct (IH _ Hsub') as [Hlen Hlook].
    split; [simpl; lia|]. intros [|k] j Hk; simplify_eq/=.
    + exists v0. split; [done|]. unfold getitem in Hv0.
      destruct (a !! j); by simplify_eq.
    + by apply Hlook.
Qed.

Lemma index_None_first {A : Type} (l : list (option A)) (i : nat) :
  l !! i = Some None → (∀ j, j < i → l !! j ≠ Some None) →
  contains_None l = true ∧ index_None l = ret i.
Proof.
  unfold contains_None.
  revert i. induction l as [|v l IH]; intros i Hi Hfirst; [done|].
  destruct v as [v|]; simpl.
  - destruct i as [|i]; [done|]. destruct (IH i) as [Hc Hidx]; [done| |].
    + intros j Hj. apply (Hfirst (S j)). lia.
    + by rewrite Hc, Hidx.
  - split; [done|]. destruct i as [|i]; [done|].
    destruct (Hfirst 0); [lia|done].
Qed.

Lemma contains_None_false {A : Type} (l : list (option A)) (k : nat) (v : option A) :
  contains_None l = false → l !! k = Some v → ∃ z, v = Some z.
Proof.
  revert k. induction l as [|w l IH]; intros k Hc Hk; [done|].
  unfold contains_None in *. simpl in Hc. apply orb_false_iff in Hc as [Hw Hc].
  destruct k as [|k]; simplify_eq/=.
  - destruct v as [z|]; [by exists z|done].
  - by eapply IH.
Qed.

(** ** Putting the results back *)

Lemma scatter_from (vals : list (option float)) (idx : list nat) :
  ∀ (s : nat) (elevs out : list (option float)),
    foldM (fun elevations (ii : nat * nat) =>
             do v <- getitem vals ii.1 ;; setitem elevations ii.2 v)
          elevs (zip (seq s (length idx)) idx) = ret out →
    length out = length elevs
    ∧ (∀ j, j ∉ idx → out !! j = elevs !! j)
    ∧ (NoDup idx → ∀ k i, idx !! k = Some i →
         ∃ v, vals !! (s + k) = Some v ∧ out !! i = Some v).
Proof.
  induction idx as [|i0 idx IH]; intros s elevs out Hout.
  - injection Hout as <-. split; [done|]. split; [done|]. by intros _ k i ?.
  - simpl in Hout. apply bind_ret_inv in Hout as (elevs' & Hstep & Hout).
    apply bind_ret_inv in Hstep as (v0 & Hv0 & Hset).
    unfold getitem in Hv0. destruct (vals !! s) as [v0'|] eqn:Hvals; [|done].
    injection Hv0 as ->. unfold setitem in Hset.
    destruct (decide (i0 < length elevs)) as [Hlt|]; [|done].
    injection Hset as <-.
    destruct (IH _ _ _ Hout) as (Hlen & Hother & Hmine).
    rewrite length_insert in Hlen. split; [done|]. split.
    + intros j [Hj0 Hj]%not_elem_of_cons. rewrite Hother by done.
      by apply list_lookup_insert_ne.
    + intros [Hi0 Hnd]%NoDup_cons [|k] i Hk; simplify_eq/=.
      * exists v0. rewrite Nat.add_0_r. split; [done|].
        rewrite Hother by done. by apply list_lookup_insert_eq.
      * destruct (Hmine Hnd k i Hk) as (v & Hv & Hi).
        exists v. split; [|done]. by rewrite <- Hv, Nat.add_succ_r.
Qed.

Section Merge.

(** The indices of each group: distinct inside a group, and no index in
    two groups. *)
Variable groups : option string → list nat.
Hypothesis groups_NoDup : ∀ key, NoDup (groups key).
Hypothesis groups_disjoint :
  ∀ key key' i, i ∈ groups key → i ∈ groups key' → key = key'.

Lemma merge_groups (ebp : dict (list (option float))) :
  ∀ elevs out : list (option float),
    foldM (fun elevations (entry : option string * list (option float)) =>
             foldM (fun elevations (ii : nat * nat) =>
                      do v <- getitem entry.2 ii.1 ;; setitem elevations ii.2 v)
                   elevations (enumerate (groups entry.1)))
          elevs ebp = ret out →
    NoDup ebp.*1 →
    length out = length elevs
    ∧ (∀ j, (∀ key, key ∈ ebp.*1 → j ∉ groups key) → out !! j = elevs !! j)
    ∧ (∀ key vals k i, (key, vals) ∈ ebp → groups key !! k = Some i →
         ∃ v, vals !! k = Some v ∧ out !! i = Some v).
Proof.
  induction ebp as [|[key0 vals0] ebp IH]; intros elevs out Hout Hnd.
  - injection Hout as <-. split; [done|]. split; [done|].
    by intros key vals k i ?%elem_of_nil.
  - simpl in Hout. apply bind_ret_inv in Hout as (elevs' & Hstep & Hout).
    apply NoDup_cons in Hnd as [Hkey0 Hnd].
    apply (scatter_from vals0 (groups key0) 0) in Hstep
      as (Hlen' & Hother' & Hmine').
    destruct (IH _ _ Hout Hnd) as (Hlen & Hother & Hmine).
    split; [congruence|]. split.
    + intros j Hj. rewrite Hother, Hother'; [done| |].
      * apply Hj. csimpl. apply elem_of_cons. by left.
      * intros key Hkey. apply Hj. csimpl. apply elem_of_cons. by right.
    + intros key vals k i [[= -> ->]|Hin]%elem_of_cons Hk.
      * destruct (Hmine' (groups_NoDup key0) k i Hk) as (v & Hv & Hi).
        exists v. split; [done|]. rewrite Hother; [done|].
        intros key Hkey Hikey. apply Hkey0.
        apply list_elem_of_lookup_2 in Hk.
        by rewrite (groups_disjoint key0 key i).
      * by eapply Hmine.
Qed.

End Merge.

(** ** The orchestrator *)

Section Orchestrator.

Variable format_float : float → string.
Variable pyproj_Proj : Z → list float → list float → option (list float * list float).
Variable rasterio_open : string → option DatasetReader.

Abbreviation lookup := (get_elevation format_float pyproj_Proj rasterio_open).
Abbreviation values := (group_values format_float pyproj_Proj rasterio_open).

Variables (lats lons : list float) (dataset : Dataset) (interpolation : string).

Abbreviation paths := (location_paths dataset lats lons).

(** The step without a tile either adds nothing (every point has a tile)
    or stores the fill values, none of which is [None]. *)
Lemma fill_missing_ret (ebp : dict (list (option float))) :
  fill_missing format_float lats lons dataset (group_indices paths) = ret ebp →
  (routed_to paths None = [] ∧ ebp = [])
  ∨ (routed_to paths None ≠ []
     ∧ ∃ fill, values lats lons dataset interpolation None = ret fill
               ∧ contains_None fill = false ∧ ebp = [(None, fill)]).
Proof.
  unfold fill_missing, dict_contains, group_values.
  rewrite group_indices_get, group_indices_lookup.
  destruct (routed_to paths None) as [|i0 idx] eqn:Hidx.
  - rewrite bool_decide_eq_false_2 by (by intros [? ?]). intros [= <-]. by left.
  - rewrite bool_decide_eq_true_2 by done. intros Hfill. right. split; [done|].
    apply bind_ret_inv in Hfill as (la & Hla & Hfill).
    apply bind_ret_inv in Hfill as (lo & Hlo & Hfill).
    rewrite Hla, Hlo; simpl.
    destruct (contains_None _) eqn:Hc; simpl in Hfill.
    + destruct (index_None _) as [|i]; [done|]. simpl in Hfill.
      destruct (getitem la i); [done|]. simpl in Hfill.
      by destruct (getitem lo i).
    + injection Hfill as <-. by eexists.
Qed.

(** The loop over the tiles keeps the entries it is given and adds, for
    every tile path it meets, the values of that group. *)
Lemma sample_tiles_ret (entries : dict (list nat)) :
  ∀ acc ebp : dict (list (option float)),
    foldM
      (fun elevations_by_path (entry : option string * list nat) =>
         match entry.1 with
         | None => ret elevations_by_path
         | Some path =>
             do batch_lats <- np_take lats (defaultdict_get (group_indices paths) (Some path)) ;;
             do batch_lons <- np_take lons (defaultdict_get (group_indices paths) (Some path)) ;;
             do z <- _get_elevation_from_path format_float pyproj_Proj rasterio_open
                       batch_lats batch_lons path interpolation ;;
             ret (dict_set elevations_by_path (Some path) (map Some z))
         end)
      acc entries = ret ebp →
    (NoDup acc.*1 → NoDup ebp.*1)
    ∧ (∀ key, key ∉ entries.*1 ∨ key = None →
         dict_lookup ebp key = dict_lookup acc key)
    ∧ (∀ path, Some path ∈ entries.*1 →
         ∃ z, values lats lons dataset interpolation (Some path) = ret (map Some z)
              ∧ dict_lookup ebp (Some path) = Some (map Some z)).
Proof.
  induction entries as [|[key0 idx0] entries IH]; intros acc ebp Hebp.
  - injection Hebp as <-. split; [done|]. split; [done|].
    by intros path ?%elem_of_nil.
  - simpl in Hebp. apply bind_ret_inv in Hebp as (acc' & Hstep & Hebp).
    destruct (IH _ _ Hebp) as (Hnd & Hkeep & Hnew). clear IH.
    destruct key0 as [path0|]; simpl in Hstep.
    + rewrite group_indices_get in Hstep.
      apply bind_ret_inv in Hstep as (la & Hla & Hstep).
      apply bind_ret_inv in Hstep as (lo & Hlo & Hstep).
      apply bind_ret_inv in Hstep as (z & Hz & Hstep).
      injection Hstep as <-.
      assert (values lats lons dataset interpolation (Some path0)
              = ret (map Some z)) as Hvalues.
      { unfold group_values. rewrite Hla, Hlo; simpl. by rewrite Hz. }
      split; [intros ?; by apply Hnd, dict_set_NoDup|]. split.
      * intros key Hkey. rewrite Hkeep, dict_lookup_set.
        -- apply decide_False. intros <-. destruct Hkey as [Hkey|]; [|done].
           apply Hkey. csimpl. apply elem_of_cons. by left.
        -- destruct Hkey as [Hkey|]; [left|by right].
           intros ?. apply Hkey. csimpl. apply elem_of_cons. by right.
      * intros path. csimpl. intros [[= ->]|Hin]%elem_of_cons; [|by apply Hnew].
        destruct (decide (Some path0 ∈ entries.*1)) as [Hin|Hnin];
          [by apply Hnew|].
        exists z. split; [done|].
        rewrite Hkeep by (by left). rewrite dict_lookup_set.
        by apply decide_True.
    + injection Hstep as <-. split; [done|]. split.
      * intros key Hkey. apply Hkeep. destruct Hkey as [Hkey|]; [left|by right].
        intros ?. apply Hkey. csimpl. apply elem_of_cons. by right.
      * intros path. csimpl. intros [[=]|Hin]%elem_of_cons. by apply Hnew.
Qed.

(** C10. On the empty batch, a dataset that routes no point returns the
    empty list. *)
Theorem get_elevation_empty :
  location_paths dataset [] [] = [] →
  get_elevation format_float pyproj_Proj rasterio_open [] [] dataset interpolation
  = ret [].
Proof. intros Hpaths. unfold get_elevation. by rewrite Hpaths. Qed.

(** C2. When the fill values of the points without a tile hold a [None],
    the whole call raises [InputError], and the message quotes the point of
    the batch that the first [None] stands for. *)
Theorem get_elevation_outside_dataset (no_lats no_lons : list float) (i : nat) :
  np_take lats (routed_to paths None) = ret no_lats →
  np_take lons (routed_to paths None) = ret no_lons →
  length (missing_tile_elevations dataset no_lats no_lons) = length no_lats →
  missing_tile_elevations dataset no_lats no_lons !! i = Some None →
  (∀ j, j < i → missing_tile_elevations dataset no_lats no_lons !! j ≠ Some None) →
  ∃ n lat lon,
    routed_to paths None !! i = Some n ∧ paths !! n = Some None
    ∧ lats !! n = Some lat ∧ lons !! n = Some lon
    ∧ lookup lats lons dataset interpolation
      = raise (InputError (outside_message format_float lat lon)).
Proof.
  intros Hla Hlo Hlen Hi Hfirst.
  destruct (np_take_lookup _ _ _ Hla) as [Hlen_la Hlook_la].
  destruct (np_take_lookup _ _ _ Hlo) as [Hlen_lo Hlook_lo].
  pose proof (lookup_lt_Some _ _ _ Hi) as Hlt.
  destruct (lookup_lt_is_Some_2 (routed_to paths None) i) as [n Hn]; [lia|].
  destruct (Hlook_la i n Hn) as (lat & Hlat & Hlat').
  destruct (Hlook_lo i n Hn) as (lon & Hlon & Hlon').
  destruct (index_None_first _ i Hi Hfirst) as [Hc Hidx].
  exists n, lat, lon. split; [done|]. split.
  { by apply routed_to_lookup, list_elem_of_lookup_2 with i. }
  split; [done|]. split; [done|].
  unfold get_elevation, fill_missing, dict_contains.
  rewrite group_indices_get, group_indices_lookup.
  destruct (routed_to paths None) as [|n0 idx] eqn:Hrouted; [done|].
  rewrite bool_decide_eq_true_2 by done.
  rewrite Hla; simpl. rewrite Hlo; simpl. rewrite Hc, Hidx; simpl.
  unfold getitem. by rewrite Hlat, Hlon.
Qed.

(** C3. When the call returns, the result is as long as the batch, and
    the slot of every point holds the value of that point in its group:
    the group of its routing result holds its index at one position only,
    no other group holds it, and the slot is the value the group produced
    at that position, a number. The assignments the merge loops make are
    one for each index of the batch. *)
Theorem get_elevation_merges_in_order (out : list (option float)) :
  length paths = length lats →
  lookup lats lons dataset interpolation = ret out →
  length out = length lats
  ∧ (∀ i key, paths !! i = Some key →
       ∃ k vals v,
         defaultdict_get (group_indices paths) key !! k = Some i
         ∧ routed_to paths key !! k = Some i
         ∧ (∀ key' k', routed_to paths key' !! k' = Some i → key' = key ∧ k' = k)
         ∧ values lats lons dataset interpolation key = ret vals
         ∧ vals !! k = Some (Some v)
         ∧ out !! i = Some (Some v))
  ∧ ∃ ebp0 ebp,
      fill_missing format_float lats lons dataset (group_indices paths) = ret ebp0
      ∧ sample_tiles format_float pyproj_Proj rasterio_open lats lons interpolation
          (group_indices paths) ebp0 = ret ebp
      ∧ merge (group_indices paths) ebp (replicate (length paths) None) = ret out
      ∧ assigned (group_indices paths) ebp ≡ₚ seq 0 (length lats).
Proof.
  intros Hpaths Hout. unfold get_elevation in Hout.
  apply bind_ret_inv in Hout as (ebp0 & Hfill & Hout).
  apply bind_ret_inv in Hout as (ebp & Hsample & Hmerge).
  pose proof Hfill as Hfill0. pose proof Hsample as Hsample0.
  pose proof Hmerge as Hmerge0.
  apply fill_missing_ret in Hfill.
  apply sample_tiles_ret in Hsample as (Hnd & Hkeep & Hnew).
  assert (NoDup ebp.*1) as Hnd_ebp.
  { apply Hnd. destruct Hfill as [[_ ->]|(_ & fill & _ & _ & ->)].
    - constructor.
    - apply NoDup_singleton. }
  clear Hnd. unfold merge, scatter in Hmerge.
  apply (merge_groups (defaultdict_get (group_indices paths))) in Hmerge
    as (Hlen & _ & Hslots); [|intros key; rewrite group_indices_get;
       apply routed_to_NoDup| |done].
  2:{ intros key key' i. rewrite !group_indices_get, !routed_to_lookup. congruence. }
  rewrite length_replicate in Hlen. split; [congruence|].
  assert (∀ i key, paths !! i = Some key →
            ∃ vals, values lats lons dataset interpolation key = ret vals
                    ∧ (key, vals) ∈ ebp
                    ∧ ∀ k v, vals !! k = Some v → ∃ z, v = Some z)
    as Hgroup.
  { intros i key Hi.
    pose proof Hi as Hin.
    apply routed_to_lookup, list_elem_of_lookup_1 in Hin as [k Hk].
    destruct key as [path|].
    - destruct (Hnew path) as (z & Hz & Hlook).
      + apply dict_lookup_None_inv. rewrite group_indices_lookup.
        by destruct (routed_to paths (Some path)).
      + exists (map Some z). split; [done|]. split.
        * by apply dict_lookup_elem_of.
        * intros k' v Hv. apply lookup_map_Some in Hv as (z' & ? & ->).
          by exists z'.
    - destruct Hfill as [[Hnil _]|(_ & fill & Hfill & Hc & ->)].
      + by rewrite Hnil in Hk.
      + exists fill. split; [done|]. split.
        * apply dict_lookup_elem_of; [done|]. by rewrite Hkeep by (by right).
        * intros k' v Hv. by eapply contains_None_false. }
  split.
  - intros i key Hi.
    pose proof Hi as Hin.
    apply routed_to_lookup, list_elem_of_lookup_1 in Hin as [k Hk].
    destruct (Hgroup i key Hi) as (vals & Hvalues & Hentry & Hnumber).
    destruct (Hslots key vals k i Hentry) as (v & Hv & Hslot).
    { by rewrite group_indices_get. }
    destruct (Hnumber k v Hv) as [z ->].
    exists k, vals, z. rewrite group_indices_get.
    split; [done|]. split; [done|]. split; [|done].
    intros key' k' Hk'.
    assert (key' = key) as ->.
    { apply list_elem_of_lookup_2, routed_to_lookup in Hk'. congruence. }
    split; [done|]. by eapply NoDup_lookup, Hk; [apply routed_to_NoDup|].
  - exists ebp0, ebp. split; [done|]. split; [done|]. split; [done|].
    unfold assigned. apply NoDup_Permutation.
    + apply NoDup_bind; [|intros key _; rewrite group_indices_get;
                            apply routed_to_NoDup|done].
      intros key key' i _ _. rewrite !group_indices_get, !routed_to_lookup.
      congruence.
    + apply NoDup_seq.
    + intros i. rewrite list_elem_of_bind, elem_of_seq. split.
      * intros (key & Hi & _). rewrite group_indices_get in Hi.
        apply routed_to_lookup, lookup_lt_Some in Hi. lia.
      * intros [_ Hi]. simpl in Hi. rewrite <- Hpaths in Hi.
        destruct (lookup_lt_is_Some_2 paths i Hi) as [key Hkey].
        destruct (Hgroup i key Hkey) as (vals & _ & Hentry & _).
        exists key. rewrite group_indices_get, routed_to_lookup.
        split; [done|]. change key with (key, vals).1.
        by apply list_elem_of_fmap_2.
Qed.

End Orchestrator.

(** ** The statements at the data of the test suite *)

(** C4 at the three boundary points of [test_valid_points_on_boundary]. *)
Lemma validate_in_bounds_iff_witness :
  let xs := [0; -100; 100]%float in
  let ys := [0; -50; 50]%float in
  length xs = length ys
  ∧ ((_validate_points_lie_within_raster format_sign xs ys ys xs test_bounds test_res
      = ret tt
      ↔ Forall (fun p => point_in_bounds test_bounds test_res p.1 p.2 = true)
               (zip xs ys))
     ∧ ((x_min test_bounds test_res <=? x_max test_bounds test_res)%float = true →
        (y_min test_bounds test_res <=? y_max test_bounds test_res)%float = true →
        ∀ x y,
          x ∈ [x_min test_bounds test_res; x_max test_bounds test_res] →
          y ∈ [y_min test_bounds test_res; y_max test_bounds test_res] →
          point_in_bounds test_bounds test_res x y = true
          ∧ _validate_points_lie_within_raster format_sign [x] [y] ys xs
              test_bounds test_res = ret tt)).
Proof.
  split; [reflexivity|].
  apply (validate_in_bounds_iff format_sign [0; -100; 100]%float [0; -50; 50]%float).
  reflexivity.
Defined.

(** C5 at a batch whose first point is too far east and whose second
    point is too far north. *)
Lemma validate_latitude_before_longitude_witness :
  let xs := [200; 0]%float in
  let ys := [0; 60]%float in
  length ys = length ys ∧ length xs = length ys
  ∧ all (in_bounds (y_min test_bounds test_res) (y_max test_bounds test_res) ys) = false
  ∧ all (in_bounds (x_min test_bounds test_res) (x_max test_bounds test_res) xs) = false
  ∧ ((∃ lat lon,
        _validate_points_lie_within_raster format_sign xs ys ys xs test_bounds test_res
        = raise (InputError (latitude_message format_sign lat lon)))
     ∧ ∀ lat lon,
        _validate_points_lie_within_raster format_sign xs ys ys xs test_bounds test_res
        ≠ raise (InputError (longitude_message format_sign lat lon))).
Proof.
  repeat (split; [reflexivity|]).
  apply (validate_latitude_before_longitude format_sign
           [200; 0]%float [0; 60]%float); reflexivity.
Defined.

(** C6 at the points of [test_valid_xy_invalid_latlons]. *)
Lemma validate_outcome_independent_of_latlons_witness :
  let xs := [0; -100; 100]%float in
  let ys := [0; -50; 50]%float in
  let lats := [1000; 1000; -1000]%float in
  let lons := [1000; 1000; -1000]%float in
  length ys = length xs
  ∧ length lats = length xs ∧ length lons = length xs
  ∧ length ys = length xs ∧ length xs = length xs
  ∧ is_ok (_validate_points_lie_within_raster format_sign xs ys lats lons
             test_bounds test_res)
    = is_ok (_validate_points_lie_within_raster format_sign xs ys ys xs
               test_bounds test_res)
  ∧ ((_validate_points_lie_within_raster format_sign xs ys lats lons test_bounds test_res
      = ret tt
      ∧ _validate_points_lie_within_raster format_sign xs ys ys xs test_bounds test_res
        = ret tt)
     ∨ (is_InputError
          (_validate_points_lie_within_raster format_sign xs ys lats lons
             test_bounds test_res) = true
        ∧ is_InputError
            (_validate_points_lie_within_raster format_sign xs ys ys xs
               test_bounds test_res) = true)).
Proof.
  repeat (split; [reflexivity|]).
  apply (validate_outcome_independent_of_latlons format_sign
           [0; -100; 100]%float [0; -50; 50]%float
           [1000; 1000; -1000]%float [1000; 1000; -1000]%float
           [0; -50; 50]%float [0; -100; 100]%float);
    reflexivity.
Defined.

(** C7 at the kernel name of [test_error_outside_dataset]. *)
Lemma unknown_kernel_is_passed_through_witness :
  "lanczos" ≠ "nearest" ∧ "lanczos" ≠ "bilinear" ∧ "lanczos" ≠ "cubic"
  ∧ INTERPOLATION_METHODS_get "lanczos" = None
  ∧ ∀ (lats lons : list float) (path : string),
      (∃ e, ∀ name',
         _get_elevation_from_path format_sign no_Proj example_open
           lats lons path name' = raise e)
      ∨ (∃ f epsg xs ys rows cols,
           example_open path = Some f
           ∧ f_crs_to_epsg f = Some epsg
           ∧ _reproject_latlons no_Proj lats lons epsg = ret (xs, ys)
           ∧ _validate_points_lie_within_raster format_sign xs ys lats lons
               (f_bounds f) (f_res f) = ret tt
           ∧ f_index f xs ys = (rows, cols)
           ∧ _get_elevation_from_path format_sign no_Proj example_open
               lats lons path "lanczos"
             = mapM (fun rc =>
                       do z_array <- f_read f rc.2 rc.1 None ;;
                       ret (filled z_array))
                    (zip (map (fun row =>
                                 np_clip (row - 0.5) 0 (float_of_Z (f_height f - 1)))
                              rows)
                         (map (fun col =>
                                 np_clip (col - 0.5) 0 (float_of_Z (f_width f - 1)))
                              cols))).
Proof.
  split; [discriminate|]. split; [discriminate|]. split; [discriminate|].
  apply (unknown_kernel_is_passed_through format_sign no_Proj example_open "lanczos");
    discriminate.
Defined.

(** C10 at the example dataset. *)
Lemma get_elevation_empty_witness :
  location_paths example_dataset [] [] = []
  ∧ get_elevation format_sign no_Proj example_open [] [] example_dataset "nearest"
    = ret [].
Proof.
  split; [reflexivity|].
  apply (get_elevation_empty format_sign no_Proj example_open example_dataset "nearest").
  reflexivity.
Defined.

(** C2 at a batch whose second and fourth points are south of the tile,
    on the dataset that fills nothing. *)
Lemma get_elevation_outside_dataset_witness :
  let lats := [10; -5; 20; -7]%float in
  let lons := [3; 4; 5; 6]%float in
  let paths := location_paths unfilled_dataset lats lons in
  let no_lats := [-5; -7]%float in
  let no_lons := [4; 6]%float in
  np_take lats (routed_to paths None) = ret no_lats
  ∧ np_take lons (routed_to paths None) = ret no_lons
  ∧ length (missing_tile_elevations unfilled_dataset no_lats no_lons) = length no_lats
  ∧ missing_tile_elevations unfilled_dataset no_lats no_lons !! 0 = Some None
  ∧ ∃ n lat lon,
      routed_to paths None !! 0 = Some n ∧ paths !! n = Some None
      ∧ lats !! n = Some lat ∧ lons !! n = Some lon
      ∧ get_elevation format_sign no_Proj example_open lats lons unfilled_dataset "nearest"
        = raise (InputError (outside_message format_sign lat lon)).
Proof.
  repeat (split; [reflexivity|]).
  apply (get_elevation_outside_dataset format_sign no_Proj example_open
           [10; -5; 20; -7]%float [3; 4; 5; 6]%float unfilled_dataset "nearest"
           [-5; -7]%float [4; 6]%float 0);
    [reflexivity..|]. intros j Hj. lia.
Defined.

(** C3 at the same batch on the dataset that fills with 0: the first and
    third points are sampled from the tile, the others are filled. *)
Lemma get_elevation_merges_in_order_witness :
  let lats := [10; -5; 20; -7]%float in
  let lons := [3; 4; 5; 6]%float in
  let paths := location_paths example_dataset lats lons in
  let out := [Some 71.5; Some 0; Some 67.5; Some 0]%float in
  length paths = length lats
  ∧ get_elevation format_sign no_Proj example_open lats lons example_dataset "nearest"
    = ret out
  ∧ length out = length lats
  ∧ (∀ i key, paths !! i = Some key →
      ∃ k vals v,
        defaultdict_get (group_indices paths) key !! k = Some i
        ∧ routed_to paths key !! k = Some i
        ∧ (∀ key' k', routed_to paths key' !! k' = Some i → key' = key ∧ k' = k)
        ∧ group_values format_sign no_Proj example_open lats lons example_dataset
            "nearest" key = ret vals
        ∧ vals !! k = Some (Some v)
        ∧ out !! i = Some (Some v))
  ∧ ∃ ebp0 ebp,
      fill_missing format_sign lats lons example_dataset (group_indices paths) = ret ebp0
      ∧ sample_tiles format_sign no_Proj example_open lats lons "nearest"
          (group_indices paths) ebp0 = ret ebp
      ∧ merge (group_indices paths) ebp (replicate (length paths) None) = ret out
      ∧ assigned (group_indices paths) ebp ≡ₚ seq 0 (length lats).
Proof.
  split; [reflexivity|]. split; [reflexivity|].
  apply (get_elevation_merges_in_order format_sign no_Proj example_open
           [10; -5; 20; -7]%float [3; 4; 5; 6]%float example_dataset "nearest");
    reflexivity.
Defined.

(** * Further properties of the backend *)

(** ** Floats *)

Lemma ltb_leb (a b : float) : (a <? b)%float = true → (a <=? b)%float = true.
Proof.
  rewrite FloatAxioms.ltb_spec, FloatAxioms.leb_spec. unfold SFltb, SFleb.
  by destruct (SFcompare (Prim2SF a) (Prim2SF b)) as [[]|].
Qed.

Lemma isnan_leb_r (lo v : float) : isnan v = true → (lo <=? v)%float = false.
Proof.
  unfold isnan. rewrite negb_true_iff.
  rewrite FloatAxioms.eqb_spec, FloatAxioms.leb_spec. unfold SFeqb, SFleb.
  destruct (Prim2SF v) as [s|s| |s m e], (Prim2SF lo) as [s'|s'| |s' m' e'];
    simpl; try done; try (by destruct s);
    destruct s; rewrite Z.compare_refl, Pos.compare_cont_refl; done.
Qed.

Lemma isnan_false_leb_refl (v : float) : isnan v = false → (v <=? v)%float = true.
Proof.
  unfold isnan. rewrite negb_false_iff.
  rewrite FloatAxioms.eqb_spec, FloatAxioms.leb_spec. unfold SFeqb, SFleb.
  by destruct (SFcompare (Prim2SF v) (Prim2SF v)) as [[]|].
Qed.

Lemma leb_isnan_l (a b : float) : (a <=? b)%float = true → isnan a = false.
Proof.
  intros Hab. destruct (isnan a) eqn:Hnan; [|done].
  unfold isnan in Hnan. rewrite negb_true_iff in Hnan.
  apply leb_refl_l in Hab.
  rewrite FloatAxioms.eqb_spec in Hnan. rewrite FloatAxioms.leb_spec in Hab.
  unfold SFeqb in Hnan. unfold SFleb in Hab.
  destruct (Prim2SF a) as [s|s| |s m e]; simpl in *; try done;
    try (by destruct s).
  destruct s; rewrite Z.compare_refl, Pos.compare_cont_refl in Hnan; done.
Qed.

(** [np.clip] of a number between two ordered bounds lies between them. *)
Lemma np_clip_bounds (a lo hi : float) :
  (lo <=? hi)%float = true → isnan a = false →
  (lo <=? np_clip a lo hi)%float = true ∧ (np_clip a lo hi <=? hi)%float = true.
Proof.
  intros Hlohi Ha. unfold np_clip, np_maximum, np_minimum. rewrite Ha.
  pose proof (leb_refl_l _ _ Hlohi) as Hlo. pose proof (leb_refl_r _ _ Hlohi) as Hhi.
  destruct (lo <? a)%float eqn:Hloa.
  - rewrite Ha. destruct (a <? hi)%float eqn:Hahi.
    + split; by apply ltb_leb.
    + done.
  - rewrite (leb_isnan_l _ _ Hlohi). destruct (lo <? hi)%float eqn:Hlt; [|done].
    split; [done|]. by apply ltb_leb.
Qed.

Lemma np_clip_nan (a lo hi : float) : isnan a = true → np_clip a lo hi = a.
Proof.
  intros Ha. unfold np_clip, np_maximum, np_minimum. by rewrite Ha, Ha.
Qed.

(** ** More on the bounds validator *)

Lemma all_in_bounds_false (lo hi v : float) (a : list float) :
  v ∈ a → (lo <=? v)%float && (v <=? hi)%float = false →
  all (in_bounds lo hi a) = false.
Proof.
  intros Hv Hout. apply not_true_is_false. rewrite all_in_bounds, Forall_forall.
  intros Hall. destruct (Hall v Hv) as [H1 H2]. by rewrite H1, H2 in Hout.
Qed.

Lemma np_argmax_none_in_bounds (bs : list bool) :
  bs ≠ [] → (∀ b, b ∈ bs → b = false) → np_argmax bs = ret 0.
Proof.
  intros Hne Hall. rewrite np_argmax_first_in_bounds by done.
  destruct (first_offending (map negb bs)) as [k|] eqn:Hfo; [|done].
  apply first_offending_lookup, lookup_map_Some in Hfo as (b & Hb & Hneg).
  apply list_elem_of_lookup_2, Hall in Hb. by subst b.
Qed.

Section ValidatorOutcomes.

Variable format_float : float → string.

Abbreviation validate' := (_validate_points_lie_within_raster format_float).

(** X1. For latitudes and longitudes of the length of the batch, the
    validator has three outcomes, and the axis its message names is the axis
    that failed: it returns when both tests pass, raises the latitude error
    when the y test fails, and raises the longitude error only when the y
    test passes and the x test fails. *)
Theorem validate_names_failing_axis
    (xs ys lats lons : list float) bounds res :
  length ys = length xs → length lats = length xs → length lons = length xs →
  (all (in_bounds (y_min bounds res) (y_max bounds res) ys) = true
   ∧ all (in_bounds (x_min bounds res) (x_max bounds res) xs) = true
   ∧ validate' xs ys lats lons bounds res = ret tt)
  ∨ (all (in_bounds (y_min bounds res) (y_max bounds res) ys) = false
     ∧ ∃ lat lon, validate' xs ys lats lons bounds res
                  = raise (InputError (latitude_message format_float lat lon)))
  ∨ (all (in_bounds (y_min bounds res) (y_max bounds res) ys) = true
     ∧ all (in_bounds (x_min bounds res) (x_max bounds res) xs) = false
     ∧ ∃ lat lon, validate' xs ys lats lons bounds res
                  = raise (InputError (longitude_message format_float lat lon))).
Proof.
  intros Hys Hlat Hlon.
  destruct (all (in_bounds (y_min bounds res) (y_max bounds res) ys)) eqn:Hy.
  - destruct (all (in_bounds (x_min bounds res) (x_max bounds res) xs)) eqn:Hx.
    + left. split; [done|]. split; [done|]. by apply validate_ok_iff.
    + right. right. split; [done|]. split; [done|].
      by apply validate_longitude_error.
  - right. left. split; [done|]. apply validate_latitude_error; [done|lia..].
Qed.

(** X2. When no point of the batch passes the test of the failing axis, the
    error quotes the first point of the batch, which is then the first
    offending one. This is the case of every batch of one point. *)
Theorem validate_quotes_first_point_when_none_passes
    (xs ys lats lons : list float) bounds res (lat lon : float) :
  lats !! 0 = Some lat → lons !! 0 = Some lon →
  ((∀ b, b ∈ in_bounds (y_min bounds res) (y_max bounds res) ys → b = false) →
   ys ≠ [] →
   first_offending (in_bounds (y_min bounds res) (y_max bounds res) ys) = Some 0
   ∧ validate' xs ys lats lons bounds res
     = raise (InputError (latitude_message format_float lat lon)))
  ∧ (all (in_bounds (y_min bounds res) (y_max bounds res) ys) = true →
     (∀ b, b ∈ in_bounds (x_min bounds res) (x_max bounds res) xs → b = false) →
     xs ≠ [] →
     first_offending (in_bounds (x_min bounds res) (x_max bounds res) xs) = Some 0
     ∧ validate' xs ys lats lons bounds res
       = raise (InputError (longitude_message format_float lat lon))).
Proof.
  intros Hlat Hlon.
  assert (∀ bs : list bool, (∀ b, b ∈ bs → b = false) → bs ≠ [] →
            first_offending bs = Some 0 ∧ all bs = false) as Hnone.
  { intros [|[] bs] Hall Hne; [done| |done].
    discriminate (Hall true). apply elem_of_cons. by left. }
  assert (∀ a lo hi, a ≠ [] → in_bounds lo hi a ≠ []) as Hne'.
  { by intros [|] lo hi. }
  unfold _validate_points_lie_within_raster, getitem. split.
  - intros Hall Hne. destruct (Hnone _ Hall (Hne' _ _ _ Hne)) as [Hfo Hfalse].
    split; [done|]. rewrite Hfalse; simpl.
    rewrite np_argmax_none_in_bounds by auto. simpl. by rewrite Hlat, Hlon.
  - intros Hy Hall Hne. destruct (Hnone _ Hall (Hne' _ _ _ Hne)) as [Hfo Hfalse].
    split; [done|]. rewrite Hy, Hfalse; simpl.
    rewrite np_argmax_none_in_bounds by auto. simpl. by rewrite Hlat, Hlon.
Qed.

(** X3. A NaN coordinate never passes: a batch that holds one, with
    latitudes and longitudes of its length, ends in [InputError]. *)
Theorem validate_rejects_nan
    (xs ys lats lons : list float) bounds res (v : float) :
  length ys = length xs → length lats = length xs → length lons = length xs →
  v ∈ xs ++ ys → isnan v = true →
  is_InputError (validate' xs ys lats lons bounds res) = true.
Proof.
  intros Hys Hlat Hlon Hv Hnan.
  assert (∀ lo hi, (lo <=? v)%float && (v <=? hi)%float = false) as Hout.
  { intros lo hi. by rewrite isnan_leb_r. }
  destruct (all (in_bounds (y_min bounds res) (y_max bounds res) ys)) eqn:Hy.
  - apply elem_of_app in Hv as [Hv|Hv].
    + destruct (validate_longitude_error format_float xs ys lats lons bounds res)
        as (? & ? & ->); [done| |done..].
      by eapply all_in_bounds_false.
    + by rewrite (all_in_bounds_false _ _ v ys) in Hy.
  - destruct (validate_latitude_error format_float xs ys lats lons bounds res)
      as (? & ? & ->); [done|lia..|done].
Qed.

End ValidatorOutcomes.

(** ** More on the tile sampler *)

Lemma mapM_length {A B : Type} (f : A → result B) (l : list A) (k : list B) :
  mapM f l = ret k → length k = length l.
Proof.
  revert k. induction l as [|a l IH]; simpl; intros k Hk.
  - by injection Hk as <-.
  - apply bind_ret_inv in Hk as (b & _ & Hk).
    apply bind_ret_inv in Hk as (k' & Hk' & Hk). injection Hk as <-.
    simpl. by rewrite (IH k').
Qed.

Lemma Forall_map_intro {A B : Type} (P : B → Prop) (f : A → B) (l : list A) :
  (∀ a, P (f a)) → Forall P (map f l).
Proof. intros HP. induction l; simpl; by constructor. Qed.

Lemma Forall_zip_both {A B : Type} (P : A → Prop) (Q : B → Prop)
    (l : list A) (k : list B) :
  Forall P l → Forall Q k → Forall (fun p => P p.1 ∧ Q p.2) (zip l k).
Proof.
  intros Hl. revert k. induction Hl as [|a l Ha Hl IH]; intros k Hk; [constructor|].
  destruct Hk as [|b k Hb Hk]; simpl; [constructor|].
  constructor; [done|]. by apply IH.
Qed.

Lemma length_zip_min {A B : Type} (l : list A) (k : list B) :
  length (zip l k) = length l `min` length k.
Proof.
  revert k. induction l as [|a l IH]; intros [|b k]; simpl; [done..|].
  by rewrite IH.
Qed.

Section SamplerOutcomes.

Variable format_float : float → string.
Variable pyproj_Proj : Z → list float → list float → option (list float * list float).
Variable rasterio_open : string → option DatasetReader.

Abbreviation sample' :=
  (_get_elevation_from_path format_float pyproj_Proj rasterio_open).

(** X4. The sampler returns only after every stage passed: the file
    opened and has an EPSG code, the reprojection succeeded, and every
    projected coordinate lies inside the extent of the file inset by half a
    pixel; it then returns one value for every (row, column) pair of the
    file's index. No point outside a file is ever sampled. *)
Theorem sample_returns_only_in_bounds
    (lats lons : list float) (path interpolation : string) (z : list float) :
  sample' lats lons path interpolation = ret z →
  ∃ f epsg xs ys,
    rasterio_open path = Some f
    ∧ f_crs_to_epsg f = Some epsg
    ∧ _reproject_latlons pyproj_Proj lats lons epsg = ret (xs, ys)
    ∧ Forall (fun x => (x_min (f_bounds f) (f_res f) <=? x)%float = true
                       ∧ (x <=? x_max (f_bounds f) (f_res f))%float = true) xs
    ∧ Forall (fun y => (y_min (f_bounds f) (f_res f) <=? y)%float = true
                       ∧ (y <=? y_max (f_bounds f) (f_res f))%float = true) ys
    ∧ length z = length (f_index f xs ys).1 `min` length (f_index f xs ys).2.
Proof.
  unfold _get_elevation_from_path.
  destruct (rasterio_open path) as [f|]; [|done].
  destruct (f_crs_to_epsg f) as [epsg|] eqn:Hepsg; simpl; [|done].
  destruct (_reproject_latlons pyproj_Proj lats lons epsg) as [?|[xs ys]] eqn:Hxy;
    simpl; [done|].
  destruct (_validate_points_lie_within_raster _ xs ys lats lons _ _) as [?|[]] eqn:Hv;
    simpl; [done|].
  apply validate_ok_iff in Hv as [Hy Hx]. apply all_in_bounds in Hy, Hx.
  destruct (f_index f xs ys) as [rows cols] eqn:Hidx. intros Hz%mapM_length.
  exists f, epsg, xs, ys. rewrite Hidx. repeat (split; [done|]).
  by rewrite Hz, length_zip_min, !length_map.
Qed.

(** X5. In a raster with at least one row and one column, every window the
    sampler reads has its row between 0 and [height - 1] and its column
    between 0 and [width - 1], unless the file's index gave a NaN: the
    values returned are the reads at such windows. *)
Theorem sample_reads_inside_raster
    (lats lons : list float) (path interpolation : string) (z : list float)
    (f : DatasetReader) :
  rasterio_open path = Some f →
  (0 <=? float_of_Z (f_height f - 1))%float = true →
  (0 <=? float_of_Z (f_width f - 1))%float = true →
  sample' lats lons path interpolation = ret z →
  ∃ rcs : list (float * float),
    mapM (fun rc =>
            do z_array <- f_read f rc.2 rc.1
                            (INTERPOLATION_METHODS_get interpolation) ;;
            ret (filled z_array)) rcs = ret z
    ∧ Forall (fun rc =>
                (isnan rc.1 = true
                 ∨ (0 <=? rc.1)%float = true
                   ∧ (rc.1 <=? float_of_Z (f_height f - 1))%float = true)
                ∧ (isnan rc.2 = true
                   ∨ (0 <=? rc.2)%float = true
                     ∧ (rc.2 <=? float_of_Z (f_width f - 1))%float = true)) rcs.
Proof.
  intros Hopen Hh Hw. unfold _get_elevation_from_path. rewrite Hopen.
  destruct (f_crs_to_epsg f) as [epsg|]; simpl; [|done].
  destruct (_reproject_latlons pyproj_Proj lats lons epsg) as [?|[xs ys]];
    simpl; [done|].
  destruct (_validate_points_lie_within_raster _ xs ys lats lons _ _) as [?|[]];
    simpl; [done|].
  destruct (f_index f xs ys) as [rows cols]. intros Hz.
  eexists. split; [exact Hz|].
  assert (∀ hi, (0 <=? hi)%float = true →
            ∀ a, isnan (np_clip a 0 hi) = true
                 ∨ (0 <=? np_clip a 0 hi)%float = true
                   ∧ (np_clip a 0 hi <=? hi)%float = true) as Hclip.
  { intros hi Hhi a. destruct (isnan a) eqn:Ha.
    - left. by rewrite np_clip_nan.
    - right. by apply np_clip_bounds. }
  apply (Forall_zip_both
           (fun r => isnan r = true
                     ∨ (0 <=? r)%float = true
                       ∧ (r <=? float_of_Z (f_height f - 1))%float = true)
           (fun c => isnan c = true
                     ∨ (0 <=? c)%float = true
                       ∧ (c <=? float_of_Z (f_width f - 1))%float = true)).
  - rewrite map_map. apply Forall_map_intro. intros row. by apply Hclip.
  - rewrite map_map. apply Forall_map_intro. intros col. by apply Hclip.
Qed.

End SamplerOutcomes.

(** ** More on the orchestrator *)

Lemma first_occurrences_snoc (paths : list (option string)) (p : option string) :
  first_occurrences (paths ++ [p])
  = if decide (p ∈ paths) then first_occurrences paths
    else first_occurrences paths ++ [p].
Proof.
  unfold first_occurrences. rewrite reverse_snoc. cbn [remove_dups].
  destruct (decide_rel elem_of p (reverse paths)) as [Hin|Hnin].
  - rewrite decide_True; [done|]. by apply elem_of_reverse.
  - rewrite decide_False; [by rewrite reverse_cons|]. by rewrite <- elem_of_reverse.
Qed.

Lemma elem_of_first_occurrences (paths : list (option string)) (key : option string) :
  key ∈ first_occurrences paths ↔ key ∈ paths.
Proof.
  unfold first_occurrences.
  by rewrite elem_of_reverse, elem_of_remove_dups, elem_of_reverse.
Qed.

Lemma group_indices_keys (paths : list (option string)) :
  (group_indices paths).*1 = first_occurrences paths.
Proof.
  induction paths as [|p paths IH] using rev_ind; [done|].
  rewrite group_indices_snoc, defaultdict_append_keys, first_occurrences_snoc, IH.
  apply decide_ext, elem_of_first_occurrences.
Qed.

Lemma routed_to_nil (paths : list (option string)) (key : option string) :
  routed_to paths key = [] ↔ key ∉ paths.
Proof.
  split.
  - intros Hnil [i Hi]%list_elem_of_lookup_1.
    apply routed_to_lookup in Hi. rewrite Hnil in Hi. by apply elem_of_nil in Hi.
  - intros Hnin. destruct (routed_to paths key) as [|i l] eqn:Hr; [done|].
    destruct Hnin. apply list_elem_of_lookup_2 with i, routed_to_lookup.
    rewrite Hr. apply elem_of_cons. by left.
Qed.

(** X6. The loop over the routing results builds a dictionary whose keys
    are the distinct routing results in the order of their first
    occurrence, and whose entry for a key is the list of all indices routed
    to it, in increasing order. *)
Theorem group_indices_partition (paths : list (option string)) :
  (group_indices paths).*1 = first_occurrences paths
  ∧ NoDup (group_indices paths).*1
  ∧ ∀ key l, (key, l) ∈ group_indices paths
             ↔ key ∈ paths ∧ l = routed_to paths key.
Proof.
  split; [apply group_indices_keys|]. split; [apply group_indices_NoDup|].
  intros key l.
  rewrite dict_lookup_elem_of by apply group_indices_NoDup.
  rewrite group_indices_lookup. pose proof (routed_to_nil paths key) as Hnil.
  destruct (routed_to paths key) as [|i idx].
  - split; [done|]. intros [Hin _]. by apply Hnil in Hin.
  - split; [|by intros [_ ->]]. intros [= <-]. split; [|done].
    destruct (decide (key ∈ paths)) as [|Hnin]; [done|]. by apply Hnil in Hnin.
Qed.

Lemma np_take_all_from {A : Type} (pre l : list A) :
  np_take (pre ++ l) (seq (length pre) (length l)) = ret l.
Proof.
  unfold np_take. revert pre. induction l as [|a l IH]; intros pre; [done|].
  simpl. unfold getitem at 1. rewrite list_lookup_middle by done. simpl.
  specialize (IH (pre ++ [a])). rewrite <- app_assoc, length_app in IH.
  simpl in IH. rewrite Nat.add_1_r in IH. by rewrite IH.
Qed.

Lemma np_take_all {A : Type} (l : list A) :
  np_take l (seq 0 (length l)) = ret l.
Proof. apply (np_take_all_from [] l). Qed.

Lemma group_indices_replicate (n : nat) (key : option string) :
  group_indices (replicate (S n) key) = [(key, seq 0 (S n))].
Proof.
  induction n as [|n IH]; [done|].
  rewrite replicate_S_end, group_indices_snoc, IH, length_replicate.
  cbn [defaultdict_append]. rewrite decide_True by done.
  by rewrite (seq_S (S n) 0).
Qed.

(** The inner merge loop runs to its end when the group has a value for
    each of its indices and the indices are inside the output. *)
Lemma scatter_total (vals : list (option float)) (idx : list nat) :
  ∀ (s : nat) (elevs : list (option float)),
    (s + length idx ≤ length vals)%nat →
    (∀ i, i ∈ idx → i < length elevs) →
    ∃ out,
      foldM (fun elevations (ii : nat * nat) =>
               do v <- getitem vals ii.1 ;; setitem elevations ii.2 v)
            elevs (zip (seq s (length idx)) idx) = ret out.
Proof.
  induction idx as [|i0 idx IH]; intros s elevs Hlen Hidx; [by eexists|].
  simpl in *. destruct (getitem_lt vals s) as (v & _ & ->); [lia|]. simpl.
  unfold setitem. rewrite decide_True by (apply Hidx, elem_of_cons; by left).
  simpl. apply IH; [lia|]. intros i Hi. rewrite length_insert.
  apply Hidx, elem_of_cons. by right.
Qed.

Lemma scatter_all (vals : list (option float)) :
  scatter vals (seq 0 (length vals)) (replicate (length vals) None) = ret vals.
Proof.
  unfold scatter, enumerate.
  destruct (scatter_total vals (seq 0 (length vals)) 0
              (replicate (length vals) None)) as [out Hout].
  { rewrite length_seq. lia. }
  { intros i Hi%elem_of_seq. rewrite length_replicate. lia. }
  rewrite Hout. f_equal.
  apply scatter_from in Hout as (Hlen & _ & Hmine).
  rewrite length_replicate in Hlen. apply list_eq. intros k.
  destruct (decide (k < length vals)) as [Hk|Hk].
  - destruct (Hmine (NoDup_seq _ _) k k) as (v & Hv & Hk');
      [|simpl in Hv; congruence].
    by apply lookup_seq_lt.
  - by rewrite !lookup_ge_None_2 by lia.
Qed.

Section MergeTotal.

Variable groups : option string → list nat.

Lemma merge_total (ebp : dict (list (option float))) :
  ∀ elevs : list (option float),
    (∀ key vals, (key, vals) ∈ ebp →
       (length (groups key) ≤ length vals)%nat
       ∧ ∀ i, i ∈ groups key → i < length elevs) →
    ∃ out,
      foldM (fun elevations (entry : option string * list (option float)) =>
               foldM (fun elevations (ii : nat * nat) =>
                        do v <- getitem entry.2 ii.1 ;; setitem elevations ii.2 v)
                     elevations (enumerate (groups entry.1)))
            elevs ebp = ret out
      ∧ length out = length elevs.
Proof.
  induction ebp as [|[key0 vals0] ebp IH]; intros elevs Hebp; [by eexists|].
  simpl. destruct (Hebp key0 vals0) as [Hlen Hidx]; [apply elem_of_cons; by left|].
  destruct (scatter_total vals0 (groups key0) 0 elevs) as [elevs' Hstep];
    [simpl; lia|done|].
  unfold enumerate. rewrite Hstep. simpl.
  apply scatter_from in Hstep as (Hlen' & _ & _). rewrite <- Hlen'.
  apply IH. intros key vals Hin. rewrite Hlen'.
  apply Hebp, elem_of_cons. by right.
Qed.

End MergeTotal.

Lemma dict_lookup_singleton {V : Type} (k k' : option string) (v : V) :
  dict_lookup [(k, v)] k' = if decide (k = k') then Some v else None.
Proof. done. Qed.

Lemma dict_contains_group_indices (paths : list (option string)) (key : option string) :
  dict_contains (group_indices paths) key = bool_decide (key ∈ paths).
Proof.
  unfold dict_contains. rewrite group_indices_lookup.
  pose proof (routed_to_nil paths key) as Hnil.
  destruct (routed_to paths key) as [|i idx].
  - rewrite !bool_decide_eq_false_2; [done| |by intros [? ?]]. by apply Hnil.
  - rewrite !bool_decide_eq_true_2; [done| |done].
    destruct (decide (key ∈ paths)) as [|Hnin]; [done|]. by apply Hnil in Hnin.
Qed.

Section OrchestratorOutcomes.

Variable format_float : float → string.
Variable pyproj_Proj : Z → list float → list float → option (list float * list float).
Variable rasterio_open : string → option DatasetReader.

Abbreviation lookup' := (get_elevation format_float pyproj_Proj rasterio_open).
Abbreviation sample'' :=
  (_get_elevation_from_path format_float pyproj_Proj rasterio_open).
Abbreviation values' := (group_values format_float pyproj_Proj rasterio_open).

Variables (lats lons : list float) (dataset : Dataset) (interpolation : string).

Abbreviation paths' := (location_paths dataset lats lons).

(** X7. When every point has a tile, the fill policy is never asked: two
    datasets that route the batch alike give the same result, whatever
    their [missing_tile_elevations]. *)
Theorem get_elevation_ignores_fill_policy (dataset' : Dataset) :
  location_paths dataset' lats lons = paths' →
  None ∉ paths' →
  lookup' lats lons dataset' interpolation = lookup' lats lons dataset interpolation.
Proof.
  intros Hpaths Hnone. unfold get_elevation, fill_missing.
  rewrite Hpaths, dict_contains_group_indices.
  by rewrite bool_decide_eq_false_2.
Qed.

Lemma lookup_one_tile (path : string) (idx : list nat) :
  group_indices paths' = [(Some path, idx)] →
  lookup' lats lons dataset interpolation
  = do batch_lats <- np_take lats idx ;;
    do batch_lons <- np_take lons idx ;;
    do z <- sample'' batch_lats batch_lons path interpolation ;;
    scatter (map Some z) idx (replicate (length paths') None).
Proof.
  intros Hd. unfold get_elevation, fill_missing, dict_contains, sample_tiles, merge.
  rewrite Hd. unfold defaultdict_get. simpl. rewrite !decide_True by done. simpl.
  destruct (np_take lats idx) as [?|batch_lats]; simpl; [done|].
  destruct (np_take lons idx) as [?|batch_lons]; simpl; [done|].
  destruct (sample'' batch_lats batch_lons path interpolation) as [?|z];
    simpl; [done|].
  rewrite decide_True by done. simpl.
  by destruct (scatter _ _ _).
Qed.

Lemma lookup_no_tile (idx : list nat) :
  group_indices paths' = [(None, idx)] →
  lookup' lats lons dataset interpolation
  = do no_path_lats <- np_take lats idx ;;
    do no_path_lons <- np_take lons idx ;;
    if negb (contains_None
               (missing_tile_elevations dataset no_path_lats no_path_lons))
    then scatter (missing_tile_elevations dataset no_path_lats no_path_lons)
                 idx (replicate (length paths') None)
    else
      do i <- index_None (missing_tile_elevations dataset no_path_lats no_path_lons) ;;
      do lat <- getitem no_path_lats i ;;
      do lon <- getitem no_path_lons i ;;
      raise (InputError (outside_message format_float lat lon)).
Proof.
  intros Hd. unfold get_elevation, fill_missing, dict_contains, sample_tiles, merge.
  rewrite Hd. unfold defaultdict_get. simpl.
  destruct (np_take lats idx) as [?|no_path_lats]; simpl; [done|].
  destruct (np_take lons idx) as [?|no_path_lons]; simpl; [done|].
  destruct (contains_None _); simpl.
  - destruct (index_None _) as [?|i]; simpl; [done|].
    destruct (getitem no_path_lats i); simpl; [done|].
    by destruct (getitem no_path_lons i).
  - by destruct (scatter _ _ _).
Qed.

(** X8. A batch that is routed to one tile as a whole gets the result of
    the tile sampler on the whole batch: the values in the sampler's order
    when it returns one value for each point, and the sampler's exception
    when it raises. *)
Theorem get_elevation_single_tile (path : string) :
  lats ≠ [] → length lons = length lats →
  paths' = replicate (length lats) (Some path) →
  (∀ z, sample'' lats lons path interpolation = ret z →
        length z = length lats →
        lookup' lats lons dataset interpolation = ret (map Some z))
  ∧ (∀ e, sample'' lats lons path interpolation = raise e →
          lookup' lats lons dataset interpolation = raise e).
Proof.
  intros Hne Hlons Hpaths.
  assert (∃ n, length lats = S n) as [n Hn].
  { destruct lats; [done|]. by eexists. }
  rewrite (lookup_one_tile path (seq 0 (length lats)))
    by (by rewrite Hpaths, Hn, group_indices_replicate).
  assert (np_take lons (seq 0 (length lats)) = ret lons) as Htake
    by (rewrite <- Hlons; apply np_take_all).
  rewrite np_take_all, Htake.
  rewrite Hpaths, length_replicate. split.
  - intros z Hz Hlen. simpl. rewrite Hz. simpl. rewrite <- Hlen.
    rewrite <- (length_map Some z). apply scatter_all.
  - intros e He. simpl. by rewrite He.
Qed.

(** X9. A batch without any tile gets the fill values of the dataset, as
    they are, when there is one for each point and none is [None]; no
    raster is opened. *)
Theorem get_elevation_all_missing :
  lats ≠ [] → length lons = length lats →
  paths' = replicate (length lats) None →
  contains_None (missing_tile_elevations dataset lats lons) = false →
  length (missing_tile_elevations dataset lats lons) = length lats →
  lookup' lats lons dataset interpolation
  = ret (missing_tile_elevations dataset lats lons).
Proof.
  intros Hne Hlons Hpaths Hc Hfill.
  assert (∃ n, length lats = S n) as [n Hn].
  { destruct lats; [done|]. by eexists. }
  rewrite (lookup_no_tile (seq 0 (length lats)))
    by (by rewrite Hpaths, Hn, group_indices_replicate).
  assert (np_take lons (seq 0 (length lats)) = ret lons) as Htake
    by (rewrite <- Hlons; apply np_take_all).
  rewrite np_take_all, Htake.
  rewrite Hpaths, length_replicate. simpl. rewrite Hc. simpl.
  rewrite <- Hfill. apply scatter_all.
Qed.

(** The body of the loop over the tiles. *)
Let tile_step (elevations_by_path : dict (list (option float)))
    (entry : option string * list nat) : result (dict (list (option float))) :=
  match entry.1 with
  | None => ret elevations_by_path
  | Some path =>
      do batch_lats <- np_take lats (defaultdict_get (group_indices paths') (Some path)) ;;
      do batch_lons <- np_take lons (defaultdict_get (group_indices paths') (Some path)) ;;
      do z <- sample'' batch_lats batch_lons path interpolation ;;
      ret (dict_set elevations_by_path (Some path) (map Some z))
  end.

Lemma tile_step_values (acc : dict (list (option float))) (path : string)
    (idx : list nat) :
  tile_step acc (Some path, idx)
  = do vals <- values' lats lons dataset interpolation (Some path) ;;
    ret (dict_set acc (Some path) vals).
Proof.
  unfold tile_step, group_values. simpl. rewrite group_indices_get.
  destruct (np_take lats _) as [?|batch_lats]; simpl; [done|].
  destruct (np_take lons _) as [?|batch_lons]; simpl; [done|].
  by destruct (sample'' batch_lats batch_lons path interpolation).
Qed.

Lemma sample_tiles_total (entries : dict (list nat)) :
  ∀ acc : dict (list (option float)),
    (∀ path, Some path ∈ entries.*1 →
       is_ok (values' lats lons dataset interpolation (Some path)) = true) →
    ∃ ebp, foldM tile_step acc entries = ret ebp.
Proof.
  induction entries as [|[[path|] idx] entries IH]; intros acc Hok; [by eexists| |].
  - cbn [foldM]. rewrite tile_step_values.
    destruct (values' lats lons dataset interpolation (Some path)) as [e|vals] eqn:Hv.
    + specialize (Hok path). rewrite Hv in Hok. discriminate Hok.
      csimpl. apply elem_of_cons. by left.
    + simpl. apply IH. intros q Hq. apply Hok. csimpl. apply elem_of_cons. by right.
  - cbn [foldM]. simpl. apply IH. intros q Hq. apply Hok.
    csimpl. apply elem_of_cons. by right.
Qed.

(** The loop ends in the exception of the first tile, in the order of the
    dictionary, whose group raises. *)
Lemma sample_tiles_raise (entries : dict (list nat)) (after : list string)
    (path : string) (e : exn) :
  values' lats lons dataset interpolation (Some path) = raise e →
  ∀ (acc : dict (list (option float))) (before : list string),
    omap id entries.*1 = before ++ path :: after →
    (∀ q, q ∈ before →
       is_ok (values' lats lons dataset interpolation (Some q)) = true) →
    foldM tile_step acc entries = raise e.
Proof.
  intros He.
  induction entries as [|[[q|] idx] entries IH]; intros acc before Hkeys Hok.
  - by destruct before.
  - cbn [foldM]. rewrite tile_step_values. csimpl in Hkeys.
    destruct before as [|q' before]; simplify_eq/=.
    + by rewrite He.
    + destruct (values' lats lons dataset interpolation (Some q')) as [?|vals] eqn:Hv.
      * specialize (Hok q'). rewrite Hv in Hok. discriminate Hok.
        apply elem_of_cons. by left.
      * simpl. apply (IH _ before); [done|].
        intros q Hq. apply Hok, elem_of_cons. by right.
  - cbn [foldM]. simpl. csimpl in Hkeys. by apply (IH _ before).
Qed.

Lemma fill_missing_total :
  (None ∈ paths' →
   ∃ fill, values' lats lons dataset interpolation None = ret fill
           ∧ contains_None fill = false) →
  ∃ ebp0, fill_missing format_float lats lons dataset (group_indices paths')
          = ret ebp0.
Proof.
  intros Hfill. unfold fill_missing.
  rewrite dict_contains_group_indices, group_indices_get.
  destruct (decide (None ∈ paths')) as [Hin|Hnin].
  - rewrite bool_decide_eq_true_2 by done.
    destruct (Hfill Hin) as (fill & Hvalues & Hc). unfold group_values in Hvalues.
    destruct (np_take lats _) as [?|no_path_lats]; simpl in *; [done|].
    destruct (np_take lons _) as [?|no_path_lons]; simpl in *; [done|].
    injection Hvalues as ->. rewrite Hc. by eexists.
  - rewrite bool_decide_eq_false_2 by done. by eexists.
Qed.

(** The entries of [elevations_by_path] after the two steps are the values
    of groups of the batch. *)
Lemma elevations_by_path_entries (ebp0 ebp : dict (list (option float))) :
  fill_missing format_float lats lons dataset (group_indices paths') = ret ebp0 →
  foldM tile_step ebp0 (group_indices paths') = ret ebp →
  ∀ key vals, (key, vals) ∈ ebp →
    key ∈ paths' ∧ values' lats lons dataset interpolation key = ret vals.
Proof.
  intros Hfill Hsample key vals Hin.
  apply (fill_missing_ret _ pyproj_Proj rasterio_open _ _ _ interpolation) in Hfill.
  apply sample_tiles_ret in Hsample as (Hnd & Hkeep & Hnew).
  assert (NoDup ebp.*1) as Hnd_ebp.
  { apply Hnd. destruct Hfill as [[_ ->]|(_ & fill & _ & _ & ->)].
    - constructor.
    - apply NoDup_singleton. }
  apply dict_lookup_elem_of in Hin; [|done].
  destruct key as [path|].
  - destruct (decide (Some path ∈ (group_indices paths').*1)) as [Hkey|Hkey].
    + destruct (Hnew path Hkey) as (z & Hz & Hlook).
      rewrite group_indices_keys, elem_of_first_occurrences in Hkey.
      split; [done|]. congruence.
    + rewrite Hkeep in Hin by (by left).
      destruct Hfill as [[_ ->]|(_ & fill & _ & _ & ->)]; done.
  - rewrite Hkeep in Hin by (by right).
    destruct Hfill as [[_ ->]|(Hne & fill & Hvalues & _ & ->)]; [done|].
    simpl in Hin. injection Hin as <-. split; [|done].
    destruct (decide (None ∈ paths')) as [|Hnin]; [done|].
    by apply routed_to_nil in Hnin.
Qed.

(** X10. The call returns, with a result as long as the routing of the
    batch, as soon as every group that occurs produces one value for each
    of its points and the fill values hold no [None]. *)
Theorem get_elevation_returns :
  (∀ key, key ∈ paths' →
     ∃ vals, values' lats lons dataset interpolation key = ret vals
             ∧ length vals = length (routed_to paths' key)
             ∧ (key = None → contains_None vals = false)) →
  ∃ out, lookup' lats lons dataset interpolation = ret out
         ∧ length out = length paths'.
Proof.
  intros Hgroups. unfold get_elevation.
  destruct fill_missing_total as [ebp0 Hfill].
  { intros Hin. destruct (Hgroups None Hin) as (fill & Hv & _ & Hc).
    exists fill. split; [done|]. by apply Hc. }
  rewrite Hfill. simpl. unfold sample_tiles.
  destruct (sample_tiles_total (group_indices paths') ebp0) as [ebp Hsample].
  { intros path Hkey.
    rewrite group_indices_keys, elem_of_first_occurrences in Hkey.
    by destruct (Hgroups _ Hkey) as (vals & -> & _). }
  unfold tile_step in Hsample. rewrite Hsample. simpl. unfold merge, scatter.
  destruct (merge_total (defaultdict_get (group_indices paths')) ebp
              (replicate (length paths') None)) as (out & Hout & Hlen).
  { intros key vals Hin.
    destruct (elevations_by_path_entries ebp0 ebp Hfill Hsample key vals Hin)
      as [Hkey Hvalues].
    destruct (Hgroups key Hkey) as (vals' & Hvalues' & Hlen & _).
    rewrite Hvalues in Hvalues'. injection Hvalues' as <-.
    rewrite group_indices_get. split; [lia|].
    intros i Hi%routed_to_lookup%lookup_lt_Some.
    by rewrite length_replicate. }
  exists out. split; [done|]. by rewrite Hlen, length_replicate.
Qed.

(** X11. When the fill step passes, the call ends in the exception of the
    first tile, in the order of first occurrence in the routing, whose
    group raises: the tiles before it are sampled, no tile after it is. *)
Theorem get_elevation_raises_first_tile_error
    (before after : list string) (path : string) (e : exn) :
  (None ∈ paths' →
   ∃ fill, values' lats lons dataset interpolation None = ret fill
           ∧ contains_None fill = false) →
  omap id (first_occurrences paths') = before ++ path :: after →
  (∀ q, q ∈ before →
     is_ok (values' lats lons dataset interpolation (Some q)) = true) →
  values' lats lons dataset interpolation (Some path) = raise e →
  lookup' lats lons dataset interpolation = raise e.
Proof.
  intros Hfill Hkeys Hbefore He. unfold get_elevation.
  destruct (fill_missing_total Hfill) as [ebp0 ->]. simpl.
  unfold sample_tiles.
  rewrite <- group_indices_keys in Hkeys.
  pose proof (sample_tiles_raise (group_indices paths') after path e He
                ebp0 before Hkeys Hbefore) as Hraise.
  unfold tile_step in Hraise. by rewrite Hraise.
Qed.

End OrchestratorOutcomes.

Section SamplerErrors.

Variable format_float : float → string.
Variable pyproj_Proj : Z → list float → list float → option (list float * list float).
Variable rasterio_open : string → option DatasetReader.

(** X12. On a file in WGS84, where longitude and latitude are the x and y
    of the file, a batch with a point outside the inset extent of the file
    makes the sampler raise [InputError], whatever the interpolation name;
    nothing is read. *)
Theorem sample_raises_out_of_bounds
    (lats lons : list float) (path interpolation : string) (f : DatasetReader)
    (lat lon : float) :
  rasterio_open path = Some f →
  f_crs_to_epsg f = Some 4326%Z →
  length lons = length lats →
  (lon, lat) ∈ zip lons lats →
  point_in_bounds (f_bounds f) (f_res f) lon lat = false →
  is_InputError
    (_get_elevation_from_path format_float pyproj_Proj rasterio_open
       lats lons path interpolation) = true.
Proof.
  intros Hopen Hepsg Hlen Hin Hout.
  unfold _get_elevation_from_path. rewrite Hopen, Hepsg. simpl.
  assert (¬ (all (in_bounds (y_min (f_bounds f) (f_res f))
                            (y_max (f_bounds f) (f_res f)) lats) = true
             ∧ all (in_bounds (x_min (f_bounds f) (f_res f))
                              (x_max (f_bounds f) (f_res f)) lons) = true))
    as Hnot.
  { rewrite all_zip_in_bounds by done. rewrite Forall_forall.
    intros Hall. specialize (Hall _ Hin). simpl in Hall. congruence. }
  destruct (all (in_bounds (y_min (f_bounds f) (f_res f))
                           (y_max (f_bounds f) (f_res f)) lats)) eqn:Hy.
  - destruct (all (in_bounds (x_min (f_bounds f) (f_res f))
                             (x_max (f_bounds f) (f_res f)) lons)) eqn:Hx;
      [by destruct Hnot|].
    destruct (validate_longitude_error format_float lons lats lats lons
                (f_bounds f) (f_res f)) as (? & ? & ->); done.
  - destruct (validate_latitude_error format_float lons lats lats lons
                (f_bounds f) (f_res f)) as (? & ? & ->); done.
Qed.

End SamplerErrors.

(** ** The further statements at example data *)

(** X1 at a batch whose first point is too far east and whose second point
    is too far north. *)
Lemma validate_names_failing_axis_witness :
  let xs := [200; 0]%float in
  let ys := [0; 60]%float in
  length ys = length xs ∧ length ys = length xs ∧ length xs = length xs
  ∧ ((all (in_bounds (y_min test_bounds test_res) (y_max test_bounds test_res) ys) = true
      ∧ all (in_bounds (x_min test_bounds test_res) (x_max test_bounds test_res) xs) = true
      ∧ _validate_points_lie_within_raster format_sign xs ys ys xs test_bounds test_res
        = ret tt)
     ∨ (all (in_bounds (y_min test_bounds test_res) (y_max test_bounds test_res) ys) = false
        ∧ ∃ lat lon,
            _validate_points_lie_within_raster format_sign xs ys ys xs test_bounds test_res
            = raise (InputError (latitude_message format_sign lat lon)))
     ∨ (all (in_bounds (y_min test_bounds test_res) (y_max test_bounds test_res) ys) = true
        ∧ all (in_bounds (x_min test_bounds test_res) (x_max test_bounds test_res) xs) = false
        ∧ ∃ lat lon,
            _validate_points_lie_within_raster format_sign xs ys ys xs test_bounds test_res
            = raise (InputError (longitude_message format_sign lat lon)))).
Proof.
  repeat (split; [reflexivity|]).
  apply (validate_names_failing_axis format_sign [200; 0]%float [0; 60]%float);
    reflexivity.
Defined.

(** X2 at the point of [test_invalid_top]. *)
Lemma validate_quotes_first_point_when_none_passes_witness :
  let lats := [51]%float in
  let lons := [0]%float in
  lats !! 0 = Some 51%float ∧ lons !! 0 = Some 0%float
  ∧ lats ≠ []
  ∧ first_offending
      (in_bounds (y_min test_bounds test_res) (y_max test_bounds test_res) lats)
    = Some 0
  ∧ _validate_points_lie_within_raster format_sign lons lats lats lons
      test_bounds test_res
    = raise (InputError (latitude_message format_sign 51 0)).
Proof.
  split; [reflexivity|]. split; [reflexivity|]. split; [discriminate|].
  apply (validate_quotes_first_point_when_none_passes format_sign
           [0]%float [51]%float [51]%float [0]%float test_bounds test_res
           51%float 0%float); [reflexivity..| |discriminate].
  intros b Hb. change (b ∈ [false]) in Hb.
  by apply list_elem_of_singleton in Hb.
Defined.

(** X3 at a point whose latitude is NaN. *)
Lemma validate_rejects_nan_witness :
  let xs := [0]%float in
  let ys := [nan] in
  length ys = length xs ∧ nan ∈ xs ++ ys ∧ isnan nan = true
  ∧ is_InputError
      (_validate_points_lie_within_raster format_sign xs ys ys xs test_bounds test_res)
    = true.
Proof.
  split; [reflexivity|].
  assert (nan ∈ [0%float] ++ [nan]) as Hin.
  { apply elem_of_app. right. by apply list_elem_of_singleton. }
  split; [exact Hin|]. split; [reflexivity|].
  apply (validate_rejects_nan format_sign [0]%float [nan] [nan] [0]%float
           test_bounds test_res nan); [reflexivity..|exact Hin|reflexivity].
Defined.

(** X4 at two points of the example tile. *)
Lemma sample_returns_only_in_bounds_witness :
  let lats := [10; 20]%float in
  let lons := [3; 5]%float in
  _get_elevation_from_path format_sign no_Proj example_open lats lons "tile.tif" "nearest"
  = ret [71.5; 67.5]%float
  ∧ ∃ f epsg xs ys,
      example_open "tile.tif" = Some f
      ∧ f_crs_to_epsg f = Some epsg
      ∧ _reproject_latlons no_Proj lats lons epsg = ret (xs, ys)
      ∧ Forall (fun x => (x_min (f_bounds f) (f_res f) <=? x)%float = true
                         ∧ (x <=? x_max (f_bounds f) (f_res f))%float = true) xs
      ∧ Forall (fun y => (y_min (f_bounds f) (f_res f) <=? y)%float = true
                         ∧ (y <=? y_max (f_bounds f) (f_res f))%float = true) ys
      ∧ length [71.5; 67.5]%float
        = length (f_index f xs ys).1 `min` length (f_index f xs ys).2.
Proof.
  split; [reflexivity|].
  apply (sample_returns_only_in_bounds format_sign no_Proj example_open
           [10; 20]%float [3; 5]%float "tile.tif" "nearest").
  reflexivity.
Defined.

(** X5 at the same points. *)
Lemma sample_reads_inside_raster_witness :
  let lats := [10; 20]%float in
  let lons := [3; 5]%float in
  example_open "tile.tif" = Some example_tile
  ∧ (0 <=? float_of_Z (f_height example_tile - 1))%float = true
  ∧ (0 <=? float_of_Z (f_width example_tile - 1))%float = true
  ∧ _get_elevation_from_path format_sign no_Proj example_open lats lons "tile.tif" "nearest"
    = ret [71.5; 67.5]%float
  ∧ ∃ rcs : list (float * float),
      mapM (fun rc =>
              do z_array <- f_read example_tile rc.2 rc.1
                              (INTERPOLATION_METHODS_get "nearest") ;;
              ret (filled z_array)) rcs = ret [71.5; 67.5]%float
      ∧ Forall (fun rc =>
                  (isnan rc.1 = true
                   ∨ (0 <=? rc.1)%float = true
                     ∧ (rc.1 <=? float_of_Z (f_height example_tile - 1))%float = true)
                  ∧ (isnan rc.2 = true
                     ∨ (0 <=? rc.2)%float = true
                       ∧ (rc.2 <=? float_of_Z (f_width example_tile - 1))%float = true))
               rcs.
Proof.
  repeat (split; [reflexivity|]).
  apply (sample_reads_inside_raster format_sign no_Proj example_open
           [10; 20]%float [3; 5]%float "tile.tif" "nearest"
           [71.5; 67.5]%float example_tile); reflexivity.
Defined.

(** X12 at a point north of the example tile, with the kernel name of
    [test_error_outside_dataset]. *)
Lemma sample_raises_out_of_bounds_witness :
  let lats := [10; 70]%float in
  let lons := [3; 5]%float in
  example_open "tile.tif" = Some example_tile
  ∧ f_crs_to_epsg example_tile = Some 4326%Z
  ∧ length lons = length lats
  ∧ (5%float, 70%float) ∈ zip lons lats
  ∧ point_in_bounds (f_bounds example_tile) (f_res example_tile) 5 70 = false
  ∧ is_InputError
      (_get_elevation_from_path format_sign no_Proj example_open
         lats lons "tile.tif" "lanczos") = true.
Proof.
  repeat (split; [reflexivity|]).
  assert ((5%float, 70%float) ∈ zip [3; 5]%float [10; 70]%float) as Hin.
  { apply elem_of_cons. right. apply elem_of_cons. by left. }
  split; [exact Hin|]. split; [reflexivity|].
  apply (sample_raises_out_of_bounds format_sign no_Proj example_open
           [10; 70]%float [3; 5]%float "tile.tif" "lanczos" example_tile
           70%float 5%float); [reflexivity..|exact Hin|reflexivity].
Defined.

(** X7 at two points of the tile, on the two example datasets. *)
Lemma get_elevation_ignores_fill_policy_witness :
  let lats := [10; 20]%float in
  let lons := [3; 5]%float in
  location_paths unfilled_dataset lats lons = location_paths example_dataset lats lons
  ∧ (None ∉ location_paths example_dataset lats lons)
  ∧ get_elevation format_sign no_Proj example_open lats lons unfilled_dataset "nearest"
    = get_elevation format_sign no_Proj example_open lats lons example_dataset "nearest".
Proof.
  split; [reflexivity|].
  assert (None ∉ location_paths example_dataset [10; 20]%float [3; 5]%float) as Hnone.
  { change (None ∉ [Some "tile.tif"; Some "tile.tif"]).
    by intros [?|[?|?%elem_of_nil]%elem_of_cons]%elem_of_cons. }
  split; [exact Hnone|].
  apply (get_elevation_ignores_fill_policy format_sign no_Proj example_open
           [10; 20]%float [3; 5]%float example_dataset "nearest" unfilled_dataset);
    [reflexivity|exact Hnone].
Defined.

(** X8 at the same points: the dataset gives what the sampler gives, as in
    [test_single_file_dataset]. *)
Lemma get_elevation_single_tile_witness :
  let lats := [10; 20]%float in
  let lons := [3; 5]%float in
  lats ≠ [] ∧ length lons = length lats
  ∧ location_paths example_dataset lats lons
    = replicate (length lats) (Some "tile.tif")
  ∧ _get_elevation_from_path format_sign no_Proj example_open lats lons
      "tile.tif" "nearest" = ret [71.5; 67.5]%float
  ∧ get_elevation format_sign no_Proj example_open lats lons example_dataset "nearest"
    = ret (map Some [71.5; 67.5]%float).
Proof.
  split; [discriminate|]. repeat (split; [reflexivity|]).
  apply (get_elevation_single_tile format_sign no_Proj example_open
           [10; 20]%float [3; 5]%float example_dataset "nearest" "tile.tif");
    [discriminate|reflexivity..].
Defined.

(** X9 at two points south of the tile, as in [test_fill_value_oob]. *)
Lemma get_elevation_all_missing_witness :
  let lats := [-5; -7]%float in
  let lons := [4; 6]%float in
  lats ≠ [] ∧ length lons = length lats
  ∧ location_paths example_dataset lats lons = replicate (length lats) None
  ∧ contains_None (missing_tile_elevations example_dataset lats lons) = false
  ∧ length (missing_tile_elevations example_dataset lats lons) = length lats
  ∧ get_elevation format_sign no_Proj example_open lats lons example_dataset "nearest"
    = ret (missing_tile_elevations example_dataset lats lons).
Proof.
  split; [discriminate|]. repeat (split; [reflexivity|]).
  apply (get_elevation_all_missing format_sign no_Proj example_open
           [-5; -7]%float [4; 6]%float example_dataset "nearest");
    [discriminate|reflexivity..].
Defined.

(** X10 at a batch that mixes points of the tile and points without one. *)
Lemma get_elevation_returns_witness :
  let lats := [10; -5; 20; -7]%float in
  let lons := [3; 4; 5; 6]%float in
  let paths := location_paths example_dataset lats lons in
  (∀ key, key ∈ paths →
     ∃ vals,
       group_values format_sign no_Proj example_open lats lons example_dataset
         "nearest" key = ret vals
       ∧ length vals = length (routed_to paths key)
       ∧ (key = None → contains_None vals = false))
  ∧ ∃ out,
      get_elevation format_sign no_Proj example_open lats lons example_dataset "nearest"
      = ret out
      ∧ length out = length paths.
Proof.
  assert (∀ key,
            key ∈ location_paths example_dataset [10; -5; 20; -7]%float
                    [3; 4; 5; 6]%float →
            ∃ vals,
              group_values format_sign no_Proj example_open
                [10; -5; 20; -7]%float [3; 4; 5; 6]%float example_dataset
                "nearest" key = ret vals
              ∧ length vals
                = length (routed_to
                            (location_paths example_dataset
                               [10; -5; 20; -7]%float [3; 4; 5; 6]%float) key)
              ∧ (key = None → contains_None vals = false)) as Hgroups.
  { intros key Hkey.
    change (key ∈ [Some "tile.tif"; None; Some "tile.tif"; None]) in Hkey.
    assert (key = Some "tile.tif" ∨ key = None) as [->| ->].
    { rewrite !elem_of_cons, elem_of_nil in Hkey. tauto. }
    - exists [Some 71.5; Some 67.5]%float. by repeat split.
    - exists [Some 0; Some 0]%float. by repeat split. }
  split; [exact Hgroups|].
  apply (get_elevation_returns format_sign no_Proj example_open
           [10; -5; 20; -7]%float [3; 4; 5; 6]%float example_dataset "nearest").
  exact Hgroups.
Defined.

(** X11 at two points, the first in the eastern tile and the second in the
    western one, which cannot be opened. *)
Lemma get_elevation_raises_first_tile_error_witness :
  let lats := [10; 10]%float in
  let lons := [3; -3]%float in
  let paths := location_paths east_west_dataset lats lons in
  (None ∉ paths)
  ∧ omap id (first_occurrences paths) = ["tile.tif"] ++ "west.tif" :: []
  ∧ is_ok (group_values format_sign no_Proj example_open lats lons east_west_dataset
             "nearest" (Some "tile.tif")) = true
  ∧ group_values format_sign no_Proj example_open lats lons east_west_dataset
      "nearest" (Some "west.tif") = raise LibraryError
  ∧ get_elevation format_sign no_Proj example_open lats lons east_west_dataset "nearest"
    = raise LibraryError.
Proof.
  assert (None ∉ location_paths east_west_dataset [10; 10]%float [3; -3]%float)
    as Hnone.
  { change (None ∉ [Some "tile.tif"; Some "west.tif"]).
    by intros [?|[?|?%elem_of_nil]%elem_of_cons]%elem_of_cons. }
  split; [exact Hnone|]. repeat (split; [reflexivity|]).
  apply (get_elevation_raises_first_tile_error format_sign no_Proj example_open
           [10; 10]%float [3; -3]%float east_west_dataset "nearest"
           ["tile.tif"] [] "west.tif" LibraryError).
  - intros Hin. by destruct Hnone.
  - reflexivity.
  - intros q Hq. apply list_elem_of_singleton in Hq. by subst q.
  - reflexivity.
Defined.
